(** * Delivery simulation engine: assignment loop and KPI aggregation

    A shallow embedding of [backend/src/services/simulationEngine.ts]
    ([SimulationEngine]) and of the [POST /run] handler of
    [backend/src/routes/simulation.ts].

    Numbers.  A JavaScript [number] is an IEEE 754 binary64 value.  The
    engine is read twice.  The main reading takes numbers as exact rationals
    [Q]: the arithmetic of the engine ([+], [-], [*], [/], comparisons,
    [Math.round]) is the arithmetic on rationals and equality of computed
    numbers is [==] ([Qeq]).  It carries the loop, the selection of drivers
    and the structure of the results.  The module [F64] reads the arithmetic
    of the same functions in binary64, with the primitive floats of the
    kernel.  The two readings differ where a product or a sum is rounded
    before [Math.round] sees it: a figure reported with [k] decimals can
    come out one unit of its last decimal away from the rational figure
    (see [simulated_time_in_double_precision] and the lemmas next to the
    properties of the aggregation).  Statements about reported figures are
    therefore given as bounds that hold of both readings, and the places
    where the rational formula and the double differ are recorded as lemmas
    about [F64].

    Randomness.  [Math.random()] reads a process-wide generator.  It is
    modelled as a stream [rand : nat -> Q] of draws together with the index of
    the next draw, which the assignment loop threads through its state.

    Storage.  The collections read by the engine are lists in the order the
    store returns them; [populate] replaces a route reference by the route
    document, or by [None] (JavaScript [null]) when the route no longer
    exists.

    The development also covers the other handlers of the simulation router
    ([GET /history], [GET /kpis], [GET /analytics]), the schema of the
    simulation parameters and the validators of the stored results. *)

From Stdlib Require Import PrimFloat.
From Stdlib Require FloatOps SpecFloat.
From Stdlib Require Import QArith Qround Qabs Lqa Sorted Ascii.
From stdpp Require Import gmap strings list fin_maps.

Set Warnings "-inexact-float".

Set Default Proof Using "Type".

(** ** JavaScript primitives used by the engine *)

Module JS.

(** [a < b] on numbers. *)
Definition ltb (a b : Q) : bool := negb (Qle_bool b a).

(** [a > b] on numbers. *)
Definition gtb (a b : Q) : bool := ltb b a.

(** [Math.round]: the nearest integer, halves rounded towards [+∞]. *)
Definition round (x : Q) : Q := inject_Z (Qfloor (x + (1 # 2))%Q).

(** [Array.prototype.sort(cmp)] is a stable sort; with a consistent
    comparator its result is the list below: every element is put in
    front of the first element of the already sorted tail that it does not
    have to follow ([cmp x y <= 0]). *)
Fixpoint insert {A} (cmp : A -> A -> Q) (x : A) (l : list A) : list A :=
  match l with
  | [] => [x]
  | y :: l' => if Qle_bool (cmp x y) 0%Q then x :: y :: l' else y :: insert cmp x l'
  end.

Fixpoint sort {A} (cmp : A -> A -> Q) (l : list A) : list A :=
  match l with
  | [] => []
  | x :: l' => insert cmp x (sort cmp l')
  end.

End JS.

(** ** Documents *)

Inductive TrafficLevel := Low | Medium | High.

Inductive OrderStatus := Pending | InProgress | Delivered | Late.

Record Driver := {
  driver_id : string;
  driver_name : string;
  currentShiftHours : Q;
  pastWeekHours : Q
}.

Record Route := {
  route_id : string;
  route_name : string;
  distanceKm : Q;
  trafficLevel : TrafficLevel;
  baseTimeMinutes : Q
}.

(** An order as stored: [routeId] is a reference. *)
Record Order := {
  order_id : string;
  valueRs : Q;
  routeId : string;
  status : OrderStatus
}.

(** An order after [.populate('routeId')]: the reference is replaced by the
    route document, or by [None] when no route has that identifier. *)
Record PopulatedOrder := {
  p_order : Order;
  p_route : option Route
}.

Record SimulationParams := {
  numberOfDrivers : nat;
  routeStartTime : string;
  maxHoursPerDriver : Q
}.

Record FuelCostBreakdown := {
  baseCost : Q;
  trafficSurcharge : Q;
  total : Q
}.

Record SimulationResult := {
  totalProfit : Q;
  efficiencyScore : Q;
  onTimeDeliveries : nat;
  lateDeliveries : nat;
  fuelCostBreakdown : FuelCostBreakdown
}.

Record DeliveryAssignment := {
  orderId : string;
  driverId : string;
  a_routeId : string;
  estimatedDeliveryTime : Q;
  actualDeliveryTime : Q;
  isOnTime : bool;
  orderValue : Q;
  fuelCost : Q;
  bonus : Q;
  penalty : Q
}.

(** A stored simulation result ([models/SimulationResult]): the result, the
    parameters of the run and the time of the run. *)
Record SimulationRecord := {
  rec_result : SimulationResult;
  rec_params : SimulationParams;
  rec_timestamp : nat
}.

Record Database := {
  db_drivers : list Driver;
  db_routes : list Route;
  db_orders : list Order;
  db_results : list SimulationRecord
}.

(** ** Errors *)

Inductive SimError :=
| InsufficientData   (* [new Error('Insufficient data for simulation. ...')] *)
| TypeError.         (* a property read on [null] *)

Inductive Result (A : Type) :=
| Ok (a : A)
| Throw (e : SimError).
Arguments Ok {A} a.
Arguments Throw {A} e.

(** Sequencing: an exception skips the rest.  [x ← r; k] is stdpp's notation
    for [mbind]. *)
#[global] Instance Result_bind : MBind Result := fun A B k r =>
  match r with
  | Ok a => k a
  | Throw e => Throw e
  end.

(** [forEach] with a callback that may throw: the first exception ends the
    loop. *)
Fixpoint forEach {S A} (f : S -> A -> Result S) (l : list A) (s : S) : Result S :=
  match l with
  | [] => Ok s
  | x :: l' => s' ← f s x; forEach f l' s'
  end.

(** ** The store queries of [runSimulation] *)

(** [Driver.find().limit(n)]: the first [n] drivers; a limit of [0] means no
    limit. *)
Definition limit {A} (n : nat) (l : list A) : list A :=
  match n with
  | O => l
  | _ => take n l
  end.

Definition eligible_status (s : OrderStatus) : bool :=
  match s with
  | Pending | InProgress => true
  | Delivered | Late => false
  end.

Definition populate (routes : list Route) (o : Order) : PopulatedOrder :=
  {| p_order := o;
     p_route := List.find (fun r => String.eqb (route_id r) (routeId o)) routes |}.

(** [Order.find({ status: { $in: ['Pending', 'In Progress'] } }).populate('routeId')] *)
Definition find_orders (db : Database) : list PopulatedOrder :=
  map (populate (db_routes db))
      (List.filter (fun o => eligible_status (status o)) (db_orders db)).

(** ** [SimulationEngine] *)

Definition simulateActualDeliveryTime (estimatedTime : Q) (random : Q) : Q :=
  let variation := (2 # 10)%Q in
  let randomFactor := (1 + (random - (5 # 10)) * variation)%Q in
  JS.round (estimatedTime * randomFactor).

Definition calculateFuelCost (route : Route) : Q :=
  let baseCost := (distanceKm route * 5)%Q in
  let trafficSurcharge :=
    match trafficLevel route with
    | High => (distanceKm route * 2)%Q
    | _ => 0%Q
    end in
  (baseCost + trafficSurcharge)%Q.

Definition calculateBonus (orderValue : Q) (isOnTime : bool) : Q :=
  if JS.gtb orderValue 1000%Q && isOnTime then (orderValue * (1 # 10))%Q else 0%Q.

(** The state of the loop of [assignDeliveries]: the assignments pushed so
    far, the workload object, and the number of draws already taken from the
    random source. *)
Record LoopState := {
  assignments : list DeliveryAssignment;
  driverWorkload : gmap string Q;
  draws : nat
}.

(** [driverWorkload[id] < maxHours]; an absent key reads [undefined], and
    [undefined < x] is [false]. *)
Definition under_cap (wl : gmap string Q) (maxHours : Q) (d : Driver) : bool :=
  match wl !! driver_id d with
  | Some w => JS.ltb w maxHours
  | None => false
  end.

(** The comparator [driverWorkload[a] - driverWorkload[b]]; it is only run on
    drivers that passed the filter, whose key is present. *)
Definition by_workload (wl : gmap string Q) (a b : Driver) : Q :=
  (default 0 (wl !! driver_id a) - default 0 (wl !! driver_id b))%Q.

(** [drivers.filter(...).sort(...)[0]] *)
Definition availableDriver (drivers : list Driver) (wl : gmap string Q)
    (maxHours : Q) : option Driver :=
  head (JS.sort (by_workload wl) (List.filter (under_cap wl maxHours) drivers)).

(** The value of [estimatedTime] in the callback: [baseDeliveryTime] starts
    at the base time of the route, is multiplied by 1.3 when
    [pastWeekHours > 8 * 7], and then by 1.5 or 1.2 in the [switch] on the
    traffic level, which has no case for Low. *)
Definition estimatedTime (d : Driver) (route : Route) : Q :=
  let t0 := baseTimeMinutes route in
  let t1 := if JS.gtb (pastWeekHours d) (8 * 7)%Q then (t0 * (13 # 10))%Q else t0 in
  match trafficLevel route with
  | High => (t1 * (15 # 10))%Q
  | Medium => (t1 * (12 # 10))%Q
  | Low => t1
  end.

(** The assignment object built by the callback for order [o], the selected
    driver [d], the route [route] of the order and the draw [random] taken by
    [simulateActualDeliveryTime]. *)
Definition mkAssignment (o : Order) (d : Driver) (route : Route) (random : Q)
    : DeliveryAssignment :=
  let est := estimatedTime d route in
  let actualTime := simulateActualDeliveryTime est random in
  let onTime := Qle_bool actualTime (baseTimeMinutes route + 10)%Q in
  {| orderId := order_id o;
     driverId := driver_id d;
     a_routeId := route_id route;
     estimatedDeliveryTime := est;
     actualDeliveryTime := actualTime;
     isOnTime := onTime;
     orderValue := valueRs o;
     fuelCost := calculateFuelCost route;
     penalty := if onTime then 0%Q else 50%Q;
     bonus := calculateBonus (valueRs o) onTime |}.

(** The callback of [sortedOrders.forEach].  Without an available driver it
    returns at once.  Otherwise it reads [route.baseTimeMinutes], which
    throws a [TypeError] when the populated route is [null]; it pushes the
    assignment and adds [actualTime / 60] to the workload of the driver, whose
    key is present since the driver passed the filter. *)
Definition assignOne (drivers : list Driver) (params : SimulationParams)
    (rand : nat -> Q) (st : LoopState) (order : PopulatedOrder) : Result LoopState :=
  match availableDriver drivers (driverWorkload st) (maxHoursPerDriver params) with
  | None => Ok st
  | Some d =>
      match p_route order with
      | None => Throw TypeError
      | Some route =>
          let a := mkAssignment (p_order order) d route (rand (draws st)) in
          Ok {| assignments := assignments st ++ [a];
                driverWorkload :=
                  alter (fun w => (w + actualDeliveryTime a / 60)%Q)
                        (driver_id d) (driverWorkload st);
                draws := S (draws st) |}
      end
  end.

(** [drivers.forEach(driver => driverWorkload[id] = driver.currentShiftHours)] *)
Definition initialWorkload (drivers : list Driver) : gmap string Q :=
  foldl (fun wl d => <[driver_id d := currentShiftHours d]> wl) ∅ drivers.

(** The comparator [b.valueRs - a.valueRs]. *)
Definition by_value_desc (a b : PopulatedOrder) : Q :=
  (valueRs (p_order b) - valueRs (p_order a))%Q.

Definition sortedOrders (orders : list PopulatedOrder) : list PopulatedOrder :=
  JS.sort by_value_desc orders.

Definition initialState (drivers : list Driver) : LoopState :=
  {| assignments := []; driverWorkload := initialWorkload drivers; draws := 0 |}.

(** The loop of [assignDeliveries], with its final state. *)
Definition assignLoop (drivers : list Driver) (orders : list PopulatedOrder)
    (params : SimulationParams) (rand : nat -> Q) : Result LoopState :=
  forEach (assignOne drivers params rand) (sortedOrders orders) (initialState drivers).

Definition assignDeliveries (drivers : list Driver) (orders : list PopulatedOrder)
    (params : SimulationParams) (rand : nat -> Q) : Result (list DeliveryAssignment) :=
  st ← assignLoop drivers orders params rand; Ok (assignments st).

(** The accumulators of [calculateResults]. *)
Record Totals := {
  t_totalProfit : Q;
  t_onTime : nat;
  t_late : nat;
  t_totalBaseFuelCost : Q;
  t_totalTrafficSurcharge : Q
}.

Definition deliveryProfit (a : DeliveryAssignment) : Q :=
  (orderValue a + bonus a - penalty a - fuelCost a)%Q.

Definition accumulate (t : Totals) (a : DeliveryAssignment) : Totals :=
  {| t_totalProfit := (t_totalProfit t + deliveryProfit a)%Q;
     t_onTime := if isOnTime a then S (t_onTime t) else t_onTime t;
     t_late := if isOnTime a then t_late t else S (t_late t);
     t_totalBaseFuelCost := (t_totalBaseFuelCost t + fuelCost a * (7 # 10))%Q;
     t_totalTrafficSurcharge := (t_totalTrafficSurcharge t + fuelCost a * (3 # 10))%Q |}.

Definition zeroTotals : Totals :=
  {| t_totalProfit := 0%Q; t_onTime := 0; t_late := 0;
     t_totalBaseFuelCost := 0%Q; t_totalTrafficSurcharge := 0%Q |}.

Definition Q_of_nat (n : nat) : Q := inject_Z (Z.of_nat n).

Definition calculateResults (asg : list DeliveryAssignment) : SimulationResult :=
  let t := foldl accumulate zeroTotals asg in
  let totalDeliveries := (t_onTime t + t_late t)%nat in
  let efficiency :=
    if (0 <? totalDeliveries)%nat
    then (Q_of_nat (t_onTime t) / Q_of_nat totalDeliveries * 100)%Q
    else 0%Q in
  {| totalProfit := (JS.round (t_totalProfit t * 100) / 100)%Q;
     efficiencyScore := (JS.round (efficiency * 10) / 10)%Q;
     onTimeDeliveries := t_onTime t;
     lateDeliveries := t_late t;
     fuelCostBreakdown :=
       {| baseCost := (JS.round (t_totalBaseFuelCost t * 100) / 100)%Q;
          trafficSurcharge := (JS.round (t_totalTrafficSurcharge t * 100) / 100)%Q;
          total := (JS.round ((t_totalBaseFuelCost t + t_totalTrafficSurcharge t) * 100)
                    / 100)%Q |} |}.

Definition runSimulation (db : Database) (params : SimulationParams)
    (rand : nat -> Q) : Result SimulationResult :=
  let drivers := limit (numberOfDrivers params) (db_drivers db) in
  let routes := db_routes db in
  let orders := find_orders db in
  if (length drivers =? 0)%nat || (length routes =? 0)%nat || (length orders =? 0)%nat
  then Throw InsufficientData
  else
    asg ← assignDeliveries drivers orders params rand;
    Ok (calculateResults asg).

(** ** The [POST /run] handler *)

Inductive Response :=
| Json (r : SimulationRecord)          (* [res.json(simulationResult)] *)
| Status500 (e : SimError)             (* [res.status(500).json(...)], engine exception *)
| Status500_validation.                (* the same answer for the error of [save()] *)

(** The validators that [simulationResult.save()] runs, from the schema of
    [models/SimulationResult]: [min: 0, max: 100] on the efficiency score,
    [min: 0] on the three fuel cost figures, [min: 1] on the number of
    drivers, [required] on the route start time, which rejects the empty
    string, and [min: 1, max: 24] on the hours per driver.  ([min: 0] on the
    two delivery counts always holds.) *)
Definition validators_pass (r : SimulationRecord) : bool :=
  Qle_bool 0 (efficiencyScore (rec_result r))
  && Qle_bool (efficiencyScore (rec_result r)) 100
  && Qle_bool 0 (baseCost (fuelCostBreakdown (rec_result r)))
  && Qle_bool 0 (trafficSurcharge (fuelCostBreakdown (rec_result r)))
  && Qle_bool 0 (total (fuelCostBreakdown (rec_result r)))
  && (1 <=? numberOfDrivers (rec_params r))%nat
  && negb (String.eqb (routeStartTime (rec_params r)) EmptyString)
  && Qle_bool 1 (maxHoursPerDriver (rec_params r))
  && Qle_bool (maxHoursPerDriver (rec_params r)) 24.

(** The handler runs the engine, saves the result with the parameters and the
    current time, and answers with the saved record; any exception, of the
    engine or of [save()], is answered with status 500 and nothing is
    saved. *)
Definition post_run (db : Database) (params : SimulationParams)
    (rand : nat -> Q) (now : nat) : Database * Response :=
  match runSimulation db params rand with
  | Ok result =>
      let simulationResult :=
        {| rec_result := result; rec_params := params; rec_timestamp := now |} in
      if validators_pass simulationResult
      then ({| db_drivers := db_drivers db;
               db_routes := db_routes db;
               db_orders := db_orders db;
               db_results := db_results db ++ [simulationResult] |},
            Json simulationResult)
      else (db, Status500_validation)
  | Throw e => (db, Status500 e)
  end.

(** * Specification

    The notions of the specification that the theorems compare with the
    engine. *)

(** The selection in the words of the specification: [d] is under the cap,
    every driver under the cap that comes before [d] in the roster has a
    strictly larger workload, and every one that comes after has a workload
    at least as large. *)
Definition least_loaded (drivers : list Driver) (wl : gmap string Q)
    (maxHours : Q) (d : Driver) : Prop :=
  ∃ l1 l2 w, drivers = l1 ++ d :: l2 ∧
    wl !! driver_id d = Some w ∧ (w < maxHours)%Q ∧
    (∀ d' w', d' ∈ l1 → wl !! driver_id d' = Some w' → (w' < maxHours)%Q → (w < w')%Q) ∧
    (∀ d' w', d' ∈ l2 → wl !! driver_id d' = Some w' → (w' < maxHours)%Q → (w <= w')%Q).

Definition none_under_cap (drivers : list Driver) (wl : gmap string Q)
    (maxHours : Q) : Prop :=
  ∀ d w, d ∈ drivers → wl !! driver_id d = Some w → ¬ (w < maxHours)%Q.

(** Every assignment is built by [mkAssignment] from an order of the queue,
    its route, the driver selected at some workload, and a draw. *)
Definition produced (drivers : list Driver) (params : SimulationParams)
    (rand : nat → Q) (orders : list PopulatedOrder) (a : DeliveryAssignment) : Prop :=
  ∃ order route d wl i,
    order ∈ orders ∧ p_route order = Some route ∧
    availableDriver drivers wl (maxHoursPerDriver params) = Some d ∧
    a = mkAssignment (p_order order) d route (rand i).

(** The factors of the delivery time in the words of the specification. *)
Definition fatigue_factor (d : Driver) : Q :=
  if Qlt_le_dec 56 (pastWeekHours d) then 13 # 10 else 1.

Definition traffic_factor (t : TrafficLevel) : Q :=
  match t with
  | High => 15 # 10
  | Medium => 12 # 10
  | Low => 1
  end.

(** Sums and roundings in the words of the specification. *)
Definition sumQ (l : list Q) : Q := foldr Qplus 0%Q l.

Definition round2 (x : Q) : Q := (JS.round (x * 100) / 100)%Q.

Definition round1 (x : Q) : Q := (JS.round (x * 10) / 10)%Q.

Definition count_on_time (asg : list DeliveryAssignment) : nat :=
  length (List.filter isOnTime asg).

(** The fields of an assignment that no draw enters. *)
Definition fixed_part (a : DeliveryAssignment) : string * string * string * Q * Q * Q :=
  (orderId a, driverId a, a_routeId a, estimatedDeliveryTime a, orderValue a, fuelCost a).

(** Two loop states agree up to draw [n]: either no draw of index [n] or more
    was taken yet and the states are equal, or both states hold more than [n]
    assignments, equal before index [n] and equal in their fixed part up to
    index [n]. *)
Definition agree (n : nat) (st1 st2 : LoopState) : Prop :=
  (st1 = st2 ∧ draws st1 = length (assignments st1) ∧
     (length (assignments st1) <= n)%nat) ∨
  ((n < length (assignments st1))%nat ∧ (n < length (assignments st2))%nat ∧
     take (S n) (map fixed_part (assignments st1))
       = take (S n) (map fixed_part (assignments st2)) ∧
     take n (assignments st1) = take n (assignments st2)).

(** * Sample data *)

Module Sample.

Definition alice : Driver :=
  {| driver_id := "d1"; driver_name := "Alice"; currentShiftHours := 0; pastWeekHours := 40 |}.

Definition bob : Driver :=
  {| driver_id := "d2"; driver_name := "Bob"; currentShiftHours := 0; pastWeekHours := 60 |}.

Definition loop_road : Route :=
  {| route_id := "r1"; route_name := "Suburban Loop"; distanceKm := 10;
     trafficLevel := Low; baseTimeMinutes := 60 |}.

Definition mall_road : Route :=
  {| route_id := "r2"; route_name := "Downtown to Mall"; distanceKm := 10;
     trafficLevel := High; baseTimeMinutes := 40 |}.

Definition order (id : string) (value : Q) (route : string) (s : OrderStatus) : Order :=
  {| order_id := id; valueRs := value; routeId := route; status := s |}.

Definition db : Database :=
  {| db_drivers := [alice; bob];
     db_routes := [loop_road; mall_road];
     db_orders := [order "o1" 100 "r1" Pending; order "o2" 1500 "r1" InProgress;
                   order "o3" 1500 "r2" Pending; order "o4" 900 "r1" Delivered];
     db_results := [] |}.

Definition params : SimulationParams :=
  {| numberOfDrivers := 5; routeStartTime := "08:00"; maxHoursPerDriver := 8 |}.

(** A random source that always draws one half: no variance. *)
Definition steady : nat → Q := λ _, (1 # 2)%Q.

Definition pool : list Driver := limit (numberOfDrivers params) (db_drivers db).

(** The assignments of the run on [db] with the steady source. *)
Definition asg_steady : list DeliveryAssignment :=
  match assignDeliveries pool (find_orders db) params steady with
  | Ok asg => asg
  | Throw _ => []
  end.

(** Its second assignment: Bob, tired, on the High-traffic road. *)
Definition bob_mall : DeliveryAssignment := default (mkAssignment (order "" 0 "" Pending) bob mall_road 0) (asg_steady !! 1%nat).

(** Its first assignment: Alice on the Low-traffic road. *)
Definition alice_loop : DeliveryAssignment := default bob_mall (asg_steady !! 0%nat).

Definition result_steady : SimulationResult := calculateResults asg_steady.

(** A store with one tired driver and one order on the High-traffic road:
    with the steady source the delivery takes 78 minutes against a threshold
    of 50, so the only assignment is late. *)
Definition db_late : Database :=
  {| db_drivers := [bob];
     db_routes := [mall_road];
     db_orders := [order "o3" 1500 "r2" Pending];
     db_results := [] |}.

Definition asg_late : list DeliveryAssignment :=
  match assignDeliveries (limit (numberOfDrivers params) (db_drivers db_late))
          (find_orders db_late) params steady with
  | Ok asg => asg
  | Throw _ => []
  end.

Definition result_late : SimulationResult := calculateResults asg_late.

(** A store whose orders are all fulfilled. *)
Definition db_done : Database :=
  {| db_drivers := [alice; bob];
     db_routes := [loop_road; mall_road];
     db_orders := [order "o4" 900 "r1" Delivered; order "o5" 700 "r2" Late];
     db_results := [] |}.

(** A cap of one hour per driver. *)
Definition params_tight : SimulationParams :=
  {| numberOfDrivers := 5; routeStartTime := "08:00"; maxHoursPerDriver := 1 |}.

(** Two rested drivers and five orders on the Low-traffic road. *)
Definition carol : Driver :=
  {| driver_id := "d3"; driver_name := "Carol"; currentShiftHours := 0; pastWeekHours := 40 |}.

Definition db_pair : Database :=
  {| db_drivers := [alice; carol];
     db_routes := [loop_road];
     db_orders := [order "o1" 500 "r1" Pending; order "o2" 400 "r1" Pending;
                   order "o3" 300 "r1" Pending; order "o4" 200 "r1" Pending;
                   order "o5" 100 "r1" Pending];
     db_results := [] |}.

(** A random source whose first draw is three quarters: the first delivery
    takes 63 minutes instead of 60. *)
Definition bumpy : nat → Q := λ i, match i with O => (3 # 4)%Q | _ => (1 # 2)%Q end.

(** A random source whose first draw is one quarter: the first delivery
    takes 57 minutes instead of 60. *)
Definition brisk : nat → Q := λ i, match i with O => (1 # 4)%Q | _ => (1 # 2)%Q end.

(** A cap of two hours per driver. *)
Definition params_two : SimulationParams :=
  {| numberOfDrivers := 5; routeStartTime := "08:00"; maxHoursPerDriver := 2 |}.

(** The assignments of the run on [db_pair] with a given source. *)
Definition asg_pair (rand : nat → Q) : list DeliveryAssignment :=
  match assignDeliveries (db_drivers db_pair) (find_orders db_pair) params_two rand with
  | Ok asg => asg
  | Throw _ => []
  end.

(** The final state of the loop on [db] under the one-hour cap. *)
Definition final_tight : LoopState :=
  match assignLoop pool (find_orders db) params_tight steady with
  | Ok st => st
  | Throw _ => initialState pool
  end.

End Sample.

(** * Further notions for the engine *)

(** The contract of [Math.random()]: a draw lies in [[0, 1)]. *)
Definition valid_draws (rand : nat → Q) : Prop :=
  ∀ i, (0 <= rand i)%Q ∧ (rand i < 1)%Q.

(** The hours that the assignments of a list give to the driver [id]. *)
Definition hours_of (id : string) (asg : list DeliveryAssignment) : Q :=
  sumQ (map (λ a, (actualDeliveryTime a / 60)%Q)
            (List.filter (λ a, String.eqb (driverId a) id) asg)).

(** * The other handlers of the simulation router

    [GET /history], [GET /kpis] and [GET /analytics] of
    [backend/src/routes/simulation.ts] read the stored simulation records.
    Query parameters are taken as already converted ([Number(limit)] is a
    natural number); timestamps are milliseconds. *)

(** The comparator of [.sort({ timestamp: -1 })]: newest first.  The store
    does not fix the order of records of equal timestamp; the model keeps
    them in store order. *)
Definition by_timestamp_desc (a b : SimulationRecord) : Q :=
  (Q_of_nat (rec_timestamp b) - Q_of_nat (rec_timestamp a))%Q.

Definition newest_first (l : list SimulationRecord) : list SimulationRecord :=
  JS.sort by_timestamp_desc l.

(** [GET /history]: [find().sort({ timestamp: -1 }).limit(limit).skip(offset)]
    with the defaults [limit = 50] and [offset = 0]; the store skips before
    it limits. *)
Definition get_history (db : Database) (limit_param offset_param : option nat)
    : list SimulationRecord :=
  let limit_n := default 50%nat limit_param in
  let offset := default 0%nat offset_param in
  limit limit_n (drop offset (newest_first (db_results db))).

(** The answer of [GET /kpis] when no simulation is stored. *)
Definition defaultKPIs : SimulationResult :=
  {| totalProfit := 0; efficiencyScore := 0; onTimeDeliveries := 0; lateDeliveries := 0;
     fuelCostBreakdown := {| baseCost := 0; trafficSurcharge := 0; total := 0 |} |}.

(** [GET /kpis]: the figures of [findOne().sort({ timestamp: -1 })]. *)
Definition get_kpis (db : Database) : SimulationResult :=
  match head (newest_first (db_results db)) with
  | None => defaultKPIs
  | Some latestSimulation => rec_result latestSimulation
  end.

Record Analytics := {
  totalSimulations : nat;
  avgProfit : Q;
  maxProfit : Q;
  minProfit : Q;
  avgEfficiency : Q;
  totalDeliveries : nat;
  totalOnTime : nat;
  totalLate : nat
}.

(** The length in milliseconds of the window of a [timeframe]; any other
    value leaves [dateFilter] empty. *)
Definition time_window (timeframe : string) : option Z :=
  if String.eqb timeframe "week" then Some (7 * 24 * 60 * 60 * 1000)%Z
  else if String.eqb timeframe "month" then Some (30 * 24 * 60 * 60 * 1000)%Z
  else if String.eqb timeframe "year" then Some (365 * 24 * 60 * 60 * 1000)%Z
  else None.

(** [{ timestamp: { $gte: new Date(now.getTime() - window) } }] *)
Definition date_filter (timeframe : string) (now : nat) (r : SimulationRecord) : bool :=
  match time_window timeframe with
  | Some w => (Z.of_nat now - w <=? Z.of_nat (rec_timestamp r))%Z
  | None => true
  end.

Definition max_of (a b : Q) : Q := if Qle_bool a b then b else a.

Definition min_of (a b : Q) : Q := if Qle_bool a b then a else b.

(** The [$group] stage with [_id: null]: one document over all matched
    records, and no document when nothing matched. *)
Definition group_all (l : list SimulationRecord) : option Analytics :=
  match l with
  | [] => None
  | r :: rs =>
      let profit := λ x, totalProfit (rec_result x) in
      let efficiency := λ x, efficiencyScore (rec_result x) in
      Some {| totalSimulations := length l;
              avgProfit := (sumQ (map profit l) / Q_of_nat (length l))%Q;
              maxProfit := foldl max_of (profit r) (map profit rs);
              minProfit := foldl min_of (profit r) (map profit rs);
              avgEfficiency := (sumQ (map efficiency l) / Q_of_nat (length l))%Q;
              totalDeliveries :=
                sum_list (map (λ x, (onTimeDeliveries (rec_result x)
                                     + lateDeliveries (rec_result x))%nat) l);
              totalOnTime := sum_list (map (λ x, onTimeDeliveries (rec_result x)) l);
              totalLate := sum_list (map (λ x, lateDeliveries (rec_result x)) l) |}
  end.

Definition zeroAnalytics : Analytics :=
  {| totalSimulations := 0; avgProfit := 0; maxProfit := 0; minProfit := 0;
     avgEfficiency := 0; totalDeliveries := 0; totalOnTime := 0; totalLate := 0 |}.

(** [GET /analytics]: [timeframe] defaults to ['month']; [analytics[0]] or
    the all-zero answer. *)
Definition get_analytics (db : Database) (timeframe : option string) (now : nat)
    : Analytics :=
  let tf := default "month"%string timeframe in
  default zeroAnalytics (group_all (List.filter (date_filter tf now) (db_results db))).

(** * Validation

    [simulationParamsSchema] of [backend/src/middleware/validation.ts] and
    the constraints of the [SimulationResult] model. *)

Definition in_range (lo hi c : ascii) : bool :=
  (Ascii.nat_of_ascii lo <=? Ascii.nat_of_ascii c)%nat
  && (Ascii.nat_of_ascii c <=? Ascii.nat_of_ascii hi)%nat.

(** The pattern [/^([0-1]?[0-9]|2[0-3]):[0-5][0-9]$/] of [routeStartTime]. *)
Definition routeStartTime_pattern (s : string) : bool :=
  match String.list_ascii_of_string s with
  | [h; colon; m1; m2] =>
      in_range "0"%char "9"%char h && Ascii.eqb colon ":"%char
      && in_range "0"%char "5"%char m1 && in_range "0"%char "9"%char m2
  | [h1; h2; colon; m1; m2] =>
      ((in_range "0"%char "1"%char h1 && in_range "0"%char "9"%char h2)
       || (Ascii.eqb h1 "2"%char && in_range "0"%char "3"%char h2))
      && Ascii.eqb colon ":"%char
      && in_range "0"%char "5"%char m1 && in_range "0"%char "9"%char m2
  | _ => false
  end.

(** [Joi.number().min(1).max(50)], the pattern, [Joi.number().min(1).max(24)]. *)
Definition simulationParamsSchema (p : SimulationParams) : bool :=
  (1 <=? numberOfDrivers p)%nat && (numberOfDrivers p <=? 50)%nat
  && routeStartTime_pattern (routeStartTime p)
  && Qle_bool 1 (maxHoursPerDriver p) && Qle_bool (maxHoursPerDriver p) 24.

(** The [min] and [max] validators of the [SimulationResult] model, run by
    [simulationResult.save()]. *)
Definition within_model (r : SimulationRecord) : Prop :=
  (0 <= efficiencyScore (rec_result r))%Q ∧ (efficiencyScore (rec_result r) <= 100)%Q ∧
  (0 <= baseCost (fuelCostBreakdown (rec_result r)))%Q ∧
  (0 <= trafficSurcharge (fuelCostBreakdown (rec_result r)))%Q ∧
  (0 <= total (fuelCostBreakdown (rec_result r)))%Q ∧
  (1 <= numberOfDrivers (rec_params r))%nat ∧
  (1 <= maxHoursPerDriver (rec_params r))%Q ∧ (maxHoursPerDriver (rec_params r) <= 24)%Q.



(** The digits of a clock time. *)
Definition digit (n : nat) : Ascii.ascii := Ascii.ascii_of_nat (48 + n).

Definition clock (leading_zero : bool) (h m : nat) : string :=
  String.string_of_list_ascii
    ((if leading_zero then [digit (h / 10); digit (h mod 10)] else [digit h])
     ++ [":"%char; digit (m / 10); digit (m mod 10)]).

(** * The arithmetic of the engine in double precision

    The functions of [SimulationEngine] that compute figures, read on
    binary64 numbers.  Literals such as [0.7] denote the nearest double, as
    they do in the source. *)

Module F64.

Local Open Scope float_scope.

Definition two52 : float := 4503599627370496.

(** [Math.floor].  Below [2^52] in magnitude, adding and subtracting [2^52]
    with the sign of [x] yields an integer next to [x], which is lowered by
    one when it lies above [x]; from [2^52] on every double is an integer.
    [NaN] and the infinities are returned as they are. *)
Definition floor (x : float) : float :=
  if abs x <? two52 then
    let r := if 0 <=? x then (x + two52) - two52 else (x - two52) + two52 in
    if x <? r then r - 1 else r
  else x.

(** [Math.round]: the integer nearest to [x], a tie going up (the sign of a
    zero result is not tracked). *)
Definition round (x : float) : float :=
  let f := floor x in
  if 0.5 <=? x - f then f + 1 else f.

(** The rational that a finite double denotes. *)
Definition to_Q (x : float) : Q :=
  match FloatOps.Prim2SF x with
  | SpecFloat.S754_finite s m e =>
      let v := if (0 <=? e)%Z then inject_Z (Z.pos m * 2 ^ e)
               else Qmake (Z.pos m) (2 ^ Z.to_pos (- e)) in
      if s then Qopp v else v
  | _ => 0%Q
  end.

Definition simulateActualDeliveryTime (estimatedTime random : float) : float :=
  let variation := 0.2 in
  let randomFactor := 1 + (random - 0.5) * variation in
  round (estimatedTime * randomFactor).

Definition calculateFuelCost (distanceKm : float) (trafficLevel : TrafficLevel) : float :=
  let baseCost := distanceKm * 5 in
  let trafficSurcharge :=
    match trafficLevel with
    | High => distanceKm * 2
    | _ => 0
    end in
  baseCost + trafficSurcharge.

Definition calculateBonus (orderValue : float) (isOnTime : bool) : float :=
  if (1000 <? orderValue) && isOnTime then orderValue * 0.1 else 0.

(** The numeric fields of an assignment. *)
Record DeliveryAssignment := {
  estimatedDeliveryTime : float;
  actualDeliveryTime : float;
  isOnTime : bool;
  orderValue : float;
  fuelCost : float;
  bonus : float;
  penalty : float
}.

(** The figures that the callback of [sortedOrders.forEach] computes for an
    order of value [valueRs] on a route with the given distance, traffic
    level and base time, given to a driver with [pastWeekHours], when
    [Math.random()] returns [random]. *)
Definition mkAssignment (valueRs distanceKm : float) (trafficLevel : TrafficLevel)
    (baseTimeMinutes pastWeekHours random : float) : DeliveryAssignment :=
  let t0 := baseTimeMinutes in
  let t1 := if 8 * 7 <? pastWeekHours then t0 * 1.3 else t0 in
  let estimatedTime :=
    match trafficLevel with
    | High => t1 * 1.5
    | Medium => t1 * 1.2
    | Low => t1
    end in
  let actualTime := simulateActualDeliveryTime estimatedTime random in
  let onTime := actualTime <=? baseTimeMinutes + 10 in
  {| estimatedDeliveryTime := estimatedTime;
     actualDeliveryTime := actualTime;
     isOnTime := onTime;
     orderValue := valueRs;
     fuelCost := calculateFuelCost distanceKm trafficLevel;
     penalty := if onTime then 0 else 50;
     bonus := calculateBonus valueRs onTime |}.

(** The variables that the callback of [assignments.forEach] updates. *)
Record Totals := {
  t_totalProfit : float;
  t_onTime : float;
  t_late : float;
  t_totalBaseFuelCost : float;
  t_totalTrafficSurcharge : float
}.

Definition accumulate (t : Totals) (a : DeliveryAssignment) : Totals :=
  let deliveryProfit := orderValue a + bonus a - penalty a - fuelCost a in
  {| t_totalProfit := t_totalProfit t + deliveryProfit;
     t_onTime := if isOnTime a then t_onTime t + 1 else t_onTime t;
     t_late := if isOnTime a then t_late t else t_late t + 1;
     t_totalBaseFuelCost := t_totalBaseFuelCost t + fuelCost a * 0.7;
     t_totalTrafficSurcharge := t_totalTrafficSurcharge t + fuelCost a * 0.3 |}.

Definition zeroTotals : Totals :=
  {| t_totalProfit := 0; t_onTime := 0; t_late := 0;
     t_totalBaseFuelCost := 0; t_totalTrafficSurcharge := 0 |}.

Record SimulationResult := {
  totalProfit : float;
  efficiencyScore : float;
  onTimeDeliveries : float;
  lateDeliveries : float;
  baseCost : float;
  trafficSurcharge : float;
  total : float
}.

Definition calculateResults (assignments : list DeliveryAssignment) : SimulationResult :=
  let t := foldl accumulate zeroTotals assignments in
  let totalDeliveries := t_onTime t + t_late t in
  let efficiency :=
    if 0 <? totalDeliveries then t_onTime t / totalDeliveries * 100 else 0 in
  {| totalProfit := round (t_totalProfit t * 100) / 100;
     efficiencyScore := round (efficiency * 10) / 10;
     onTimeDeliveries := t_onTime t;
     lateDeliveries := t_late t;
     baseCost := round (t_totalBaseFuelCost t * 100) / 100;
     trafficSurcharge := round (t_totalTrafficSurcharge t * 100) / 100;
     total := round ((t_totalBaseFuelCost t + t_totalTrafficSurcharge t) * 100) / 100 |}.

End F64.

Module Cases.

(** A store whose two drivers have both worked a full day, and whose only
    order refers to a route that does not exist. *)
Definition tired_alice : Driver :=
  {| driver_id := "d1"; driver_name := "Alice"; currentShiftHours := 8; pastWeekHours := 40 |}.

Definition tired_bob : Driver :=
  {| driver_id := "d2"; driver_name := "Bob"; currentShiftHours := 9; pastWeekHours := 60 |}.

Definition db_full_day : Database :=
  {| db_drivers := [tired_alice; tired_bob];
     db_routes := [Sample.loop_road];
     db_orders := [Sample.order "o1" 100 "gone" Pending];
     db_results := [] |}.

(** A store whose only route has a negative distance, which the validators
    of the [Route] model would have refused. *)
Definition back_road : Route :=
  {| route_id := "r9"; route_name := "Back Road"; distanceKm := -10;
     trafficLevel := Low; baseTimeMinutes := 60 |}.

Definition db_back_road : Database :=
  {| db_drivers := [Sample.alice];
     db_routes := [back_road];
     db_orders := [Sample.order "o1" 100 "r9" Pending];
     db_results := [] |}.

(** An order of Rs 1002.25 on a Low-traffic road of 10 km with a base time
    of 60 minutes, delivered by a rested driver with a draw of one half: in
    double precision and in the rationals. *)
Definition plain_delivery : F64.DeliveryAssignment :=
  F64.mkAssignment 1002.25 10 Low 60 40 0.5.

Definition plain_delivery_Q : DeliveryAssignment :=
  mkAssignment (Sample.order "o1" (100225 # 100) "r1" Pending) Sample.alice
    Sample.loop_road (1 # 2).

(** An order of Rs 100 on a Low-traffic road of 2.25 km. *)
Definition short_delivery : F64.DeliveryAssignment :=
  F64.mkAssignment 100 2.25 Low 60 40 0.5.

Definition short_road : Route :=
  {| route_id := "r3"; route_name := "Short Road"; distanceKm := 225 # 100;
     trafficLevel := Low; baseTimeMinutes := 60 |}.

Definition short_delivery_Q : DeliveryAssignment :=
  mkAssignment (Sample.order "o1" 100 "r3" Pending) Sample.alice short_road (1 # 2).

(** A tired driver on a High-traffic road of 10 km with a base time of 40
    minutes: 78 minutes against a threshold of 50. *)
Definition late_delivery : F64.DeliveryAssignment :=
  F64.mkAssignment 1500 10 High 40 60 0.5.

Definition late_delivery_Q : DeliveryAssignment :=
  mkAssignment (Sample.order "o3" 1500 "r2" Pending) Sample.bob Sample.mall_road (1 # 2).

(** Eighty deliveries of which 23 are on time. *)
Definition mixed_day : list F64.DeliveryAssignment :=
  replicate 23 plain_delivery ++ replicate 57 late_delivery.

Definition mixed_day_Q : list DeliveryAssignment :=
  replicate 23 plain_delivery_Q ++ replicate 57 late_delivery_Q.

End Cases.

(** * Properties *)

(** ** Numbers *)

Lemma ltb_lt (a b : Q) : JS.ltb a b = true ↔ (a < b)%Q.
Proof.
  unfold JS.ltb. rewrite negb_true_iff, <- not_true_iff_false, Qle_bool_iff.
  split; [apply Qnot_le_lt | apply Qlt_not_le].
Qed.

Lemma ltb_ge (a b : Q) : JS.ltb a b = false ↔ (b <= a)%Q.
Proof.
  unfold JS.ltb. rewrite negb_false_iff. apply Qle_bool_iff.
Qed.

Lemma gtb_gt (a b : Q) : JS.gtb a b = true ↔ (b < a)%Q.
Proof. apply ltb_lt. Qed.

Lemma gtb_le (a b : Q) : JS.gtb a b = false ↔ (a <= b)%Q.
Proof. apply ltb_ge. Qed.

Lemma leb_gt (a b : Q) : Qle_bool a b = false ↔ (b < a)%Q.
Proof.
  rewrite <- not_true_iff_false, Qle_bool_iff.
  split; [apply Qnot_le_lt | apply Qlt_not_le].
Qed.

#[global] Instance round_proper : Proper (Qeq ==> Qeq) JS.round.
Proof.
  intros x y Hxy. unfold JS.round.
  assert (Qfloor (x + (1 # 2)) = Qfloor (y + (1 # 2))) as ->; [|reflexivity].
  apply Qfloor_comp. rewrite Hxy. reflexivity.
Qed.

(** [Math.round] is within one half of its argument. *)
Lemma round_bounds (x : Q) : (x - (1 # 2) < JS.round x ∧ JS.round x <= x + (1 # 2))%Q.
Proof.
  unfold JS.round.
  pose proof (Qfloor_le (x + (1 # 2))) as Hle.
  pose proof (Qlt_floor (x + (1 # 2))) as Hlt.
  rewrite inject_Z_plus in Hlt. change (inject_Z 1) with 1%Q in Hlt.
  split; lra.
Qed.

Lemma round_mono (x y : Q) : (x <= y)%Q → (JS.round x <= JS.round y)%Q.
Proof.
  intros H. unfold JS.round. rewrite <- Zle_Qle.
  apply Qfloor_resp_le. lra.
Qed.

Lemma round_inject_Z (z : Z) : JS.round (inject_Z z) = inject_Z z.
Proof.
  unfold JS.round. f_equal.
  apply Z.le_antisymm.
  - apply Z.lt_succ_r. rewrite Zlt_Qlt.
    eapply Qle_lt_trans; [apply Qfloor_le|].
    rewrite <- Z.add_1_r, inject_Z_plus. change (inject_Z 1) with 1%Q. lra.
  - rewrite <- (Qfloor_Z z) at 1. apply Qfloor_resp_le. lra.
Qed.

(** ** [Array.prototype.sort] with a comparator that subtracts keys *)

Section SortByKey.
Context {A : Type} (cmp : A → A → Q) (key : A → Q).
Hypothesis cmp_key : ∀ x y, (cmp x y == key x - key y)%Q.

Local Abbreviation key_le := (λ x y, (key x <= key y)%Q).

Lemma cmp_le (x y : A) : Qle_bool (cmp x y) 0 = true ↔ (key x <= key y)%Q.
Proof using cmp_key. rewrite Qle_bool_iff, cmp_key. split; intros; lra. Qed.

Lemma cmp_gt (x y : A) : Qle_bool (cmp x y) 0 = false ↔ (key y < key x)%Q.
Proof using cmp_key. rewrite leb_gt, cmp_key. split; intros; lra. Qed.

Lemma insert_perm (x : A) (l : list A) : JS.insert cmp x l ≡ₚ x :: l.
Proof.
  induction l as [|y l IH]; simpl; [done|].
  destruct (Qle_bool (cmp x y) 0); [done|].
  rewrite IH. apply Permutation_swap.
Qed.

Lemma sort_perm (l : list A) : JS.sort cmp l ≡ₚ l.
Proof.
  induction l as [|x l IH]; simpl; [done|].
  by rewrite insert_perm, IH.
Qed.


Lemma insert_sorted (x : A) (l : list A) :
  StronglySorted key_le l → StronglySorted key_le (JS.insert cmp x l).
Proof using cmp_key.
  induction 1 as [|y l Hl IH Hy]; simpl.
  - repeat constructor.
  - destruct (Qle_bool (cmp x y) 0) eqn:E.
    + apply cmp_le in E. constructor; [by constructor|].
      constructor; [done|].
      eapply Forall_impl; [exact Hy|]. simpl. intros z Hz. lra.
    + apply cmp_gt in E. constructor; [done|].
      rewrite insert_perm. constructor; [lra | done].
Qed.

Lemma sort_sorted (l : list A) : StronglySorted key_le (JS.sort cmp l).
Proof using cmp_key.
  induction l as [|x l IH]; simpl; [constructor | by apply insert_sorted].
Qed.

(** Stability: the elements of one key keep their relative order. *)
Lemma insert_filter (p : A → bool) (x : A) (l : list A) :
  (∀ y z, p y = true → p z = true → (key y == key z)%Q) →
  List.filter p (JS.insert cmp x l) = List.filter p (x :: l).
Proof using cmp_key.
  intros Hp. induction l as [|y l IH]; simpl; [done|].
  destruct (Qle_bool (cmp x y) 0) eqn:E; [done|].
  apply cmp_gt in E. simpl. rewrite IH. simpl.
  destruct (p x) eqn:Hx, (p y) eqn:Hy; try done.
  specialize (Hp _ _ Hx Hy). lra.
Qed.

Lemma sort_stable (p : A → bool) (l : list A) :
  (∀ y z, p y = true → p z = true → (key y == key z)%Q) →
  List.filter p (JS.sort cmp l) = List.filter p l.
Proof using cmp_key.
  intros Hp. induction l as [|x l IH]; simpl; [done|].
  rewrite insert_filter by done. simpl. by rewrite IH.
Qed.

(** The head of the sorted list is the first element of least key. *)
Lemma head_insert (x : A) (l : list A) :
  head (JS.insert cmp x l) =
    match head l with
    | None => Some x
    | Some m => if Qle_bool (cmp x m) 0 then Some x else Some m
    end.
Proof. destruct l as [|y l]; simpl; [done|]. by destruct (Qle_bool (cmp x y) 0). Qed.

Lemma head_sort_nil (l : list A) : head (JS.sort cmp l) = None ↔ l = [].
Proof.
  split; [|by intros ->].
  destruct l as [|x l]; [done|]. simpl. rewrite head_insert.
  destruct (head (JS.sort cmp l)); [|done]. by destruct (Qle_bool (cmp x a) 0).
Qed.

Lemma head_sort_first_min (l : list A) (m : A) :
  head (JS.sort cmp l) = Some m →
  ∃ l1 l2, l = l1 ++ m :: l2 ∧
    Forall (λ y, (key m < key y)%Q) l1 ∧ Forall (λ y, (key m <= key y)%Q) l2.
Proof using cmp_key.
  revert m. induction l as [|x l IH]; intros m; simpl; [done|].
  rewrite head_insert. destruct (head (JS.sort cmp l)) as [m'|] eqn:Hm'.
  - destruct (IH m' eq_refl) as (l1 & l2 & -> & H1 & H2).
    destruct (Qle_bool (cmp x m') 0) eqn:E; intros [= <-].
    + apply cmp_le in E. exists [], (l1 ++ m' :: l2). split; [done|].
      split; [constructor|]. apply Forall_app. split.
      * eapply Forall_impl; [exact H1|]. simpl. intros; lra.
      * constructor; [done|]. eapply Forall_impl; [exact H2|]. simpl. intros; lra.
    + apply cmp_gt in E. exists (x :: l1), l2. split; [done|].
      split; [by constructor | done].
  - apply head_sort_nil in Hm' as ->. intros [= <-].
    exists [], []. repeat split; constructor.
Qed.
End SortByKey.

(** ** Selection of the driver *)

Lemma filter_split {A} (p : A → bool) (l f1 f2 : list A) (m : A) :
  List.filter p l = f1 ++ m :: f2 →
  ∃ l1 l2, l = l1 ++ m :: l2 ∧ List.filter p l1 = f1 ∧ List.filter p l2 = f2 ∧ p m = true.
Proof.
  revert f1. induction l as [|x l IH]; intros f1; simpl.
  - by destruct f1.
  - destruct (p x) eqn:Hx.
    + destruct f1 as [|y f1]; simpl; intros [= <- Hl].
      * exists [], l. by rewrite Hl.
      * destruct (IH _ Hl) as (l1 & l2 & -> & <- & <- & Hm).
        exists (x :: l1), l2. simpl. by rewrite Hx.
    + intros Hl. destruct (IH _ Hl) as (l1 & l2 & -> & <- & <- & Hm).
      exists (x :: l1), l2. simpl. by rewrite Hx.
Qed.

Lemma filter_nil_iff {A} (p : A → bool) (l : list A) :
  List.filter p l = [] ↔ ∀ x, x ∈ l → p x = false.
Proof.
  induction l as [|x l IH]; simpl.
  - split; [|done]. intros _ x Hx. by apply elem_of_nil in Hx.
  - destruct (p x) eqn:Hx.
    + split; [done|]. intros H. specialize (H x (list_elem_of_here _ _)). congruence.
    + rewrite IH. split.
      * intros H y [->|Hy]%elem_of_cons; auto.
      * intros H y Hy. apply H. by right.
Qed.

(** The workload of a driver that is under the cap. *)
Lemma under_cap_true (wl : gmap string Q) (maxHours : Q) (d : Driver) :
  under_cap wl maxHours d = true ↔
  ∃ w, wl !! driver_id d = Some w ∧ (w < maxHours)%Q.
Proof.
  unfold under_cap. destruct (wl !! driver_id d) as [w|].
  - rewrite ltb_lt. split; [eauto|]. by intros (? & [= <-] & ?).
  - split; [done|]. by intros (? & ? & ?).
Qed.

Lemma by_workload_key (wl : gmap string Q) (a b : Driver) :
  (by_workload wl a b ==
     default 0 (wl !! driver_id a) - default 0 (wl !! driver_id b))%Q.
Proof. reflexivity. Qed.

Lemma availableDriver_None (drivers : list Driver) (wl : gmap string Q) (maxHours : Q) :
  availableDriver drivers wl maxHours = None ↔ none_under_cap drivers wl maxHours.
Proof.
  unfold availableDriver, none_under_cap. rewrite head_sort_nil, filter_nil_iff.
  split.
  - intros H d w Hd Hw Hlt. specialize (H d Hd).
    assert (under_cap wl maxHours d = true) by (apply under_cap_true; eauto).
    congruence.
  - intros H d Hd. apply not_true_iff_false. intros (w & Hw & Hlt)%under_cap_true.
    by eapply H.
Qed.

Lemma availableDriver_Some (drivers : list Driver) (wl : gmap string Q)
    (maxHours : Q) (d : Driver) :
  availableDriver drivers wl maxHours = Some d → least_loaded drivers wl maxHours d.
Proof.
  unfold availableDriver. intros H.
  apply (head_sort_first_min _ _ (by_workload_key wl)) in H
    as (f1 & f2 & Hf & H1 & H2).
  apply filter_split in Hf as (l1 & l2 & -> & <- & <- & Hd).
  apply under_cap_true in Hd as (w & Hw & Hlt).
  exists l1, l2, w. repeat split; [done..| |].
  - intros d' w' Hd' Hw' Hlt'. rewrite Forall_forall in H1.
    specialize (H1 d'). rewrite Hw, Hw' in H1. simpl in H1. apply H1.
    apply list_elem_of_In, filter_In. split; [by apply list_elem_of_In|].
    apply under_cap_true. eauto.
  - intros d' w' Hd' Hw' Hlt'. rewrite Forall_forall in H2.
    specialize (H2 d'). rewrite Hw, Hw' in H2. simpl in H2. apply H2.
    apply list_elem_of_In, filter_In. split; [by apply list_elem_of_In|].
    apply under_cap_true. eauto.
Qed.

(** The description determines the driver. *)
Lemma least_loaded_unique (drivers : list Driver) (wl : gmap string Q)
    (maxHours : Q) (d d' : Driver) :
  least_loaded drivers wl maxHours d → least_loaded drivers wl maxHours d' → d = d'.
Proof.
  intros (l1 & l2 & w & -> & Hw & Hlt & Hb & Ha)
         (l1' & l2' & w' & Heq & Hw' & Hlt' & Hb' & Ha').
  destruct (Nat.lt_total (length l1) (length l1')) as [Hl|[Hl|Hl]].
  - (* [d] comes before [d'] *)
    assert (d ∈ l1') as Hin.
    { apply list_elem_of_lookup. exists (length l1).
      rewrite <- (lookup_app_l l1' (d' :: l2')) by done.
      rewrite <- Heq. by rewrite list_lookup_middle. }
    assert (d' ∈ l2) as Hin'.
    { apply list_elem_of_lookup. exists (length l1' - S (length l1))%nat.
      assert ((l1 ++ d :: l2) !! length l1' = Some d') as Hd'
        by (rewrite Heq; by rewrite list_lookup_middle).
      rewrite lookup_app_r in Hd' by lia.
      replace (length l1' - length l1)%nat
        with (S (length l1' - S (length l1)))%nat in Hd' by lia.
      exact Hd'. }
    pose proof (Hb' _ _ Hin Hw Hlt). pose proof (Ha _ _ Hin' Hw' Hlt'). lra.
  - assert ((l1 ++ d :: l2) !! length l1 = Some d) as Hd
      by (by rewrite list_lookup_middle).
    rewrite Heq, Hl, list_lookup_middle in Hd by done. congruence.
  - assert (d' ∈ l1) as Hin.
    { apply list_elem_of_lookup. exists (length l1').
      rewrite <- (lookup_app_l l1 (d :: l2)) by done.
      rewrite Heq. by rewrite list_lookup_middle. }
    assert (d ∈ l2') as Hin'.
    { apply list_elem_of_lookup. exists (length l1 - S (length l1'))%nat.
      assert ((l1' ++ d' :: l2') !! length l1 = Some d) as Hd
        by (rewrite <- Heq; by rewrite list_lookup_middle).
      rewrite lookup_app_r in Hd by lia.
      replace (length l1 - length l1')%nat
        with (S (length l1 - S (length l1')))%nat in Hd by lia.
      exact Hd. }
    pose proof (Hb _ _ Hin Hw' Hlt'). pose proof (Ha' _ _ Hin' Hw Hlt). lra.
Qed.

Lemma availableDriver_spec (drivers : list Driver) (wl : gmap string Q)
    (maxHours : Q) (d : Driver) :
  availableDriver drivers wl maxHours = Some d ↔ least_loaded drivers wl maxHours d.
Proof.
  split; [apply availableDriver_Some|]. intros Hd.
  destruct (availableDriver drivers wl maxHours) as [d'|] eqn:E.
  - f_equal. eapply least_loaded_unique; [|exact Hd]. by apply availableDriver_Some.
  - apply availableDriver_None in E. destruct Hd as (l1 & l2 & w & -> & Hw & Hlt & _).
    exfalso. eapply E; [|exact Hw|exact Hlt]. apply elem_of_app. right. by left.
Qed.

(** ** The loop *)

Lemma bind_Ok {A B} (r : Result A) (k : A → Result B) (b : B) :
  (r ≫= k) = Ok b ↔ ∃ a, r = Ok a ∧ k a = Ok b.
Proof.
  destruct r as [a|e]; simpl.
  - split; [eauto|]. by intros (? & [= <-] & ?).
  - split; [done|]. by intros (? & ? & ?).
Qed.

Lemma forEach_cons {S A} (f : S → A → Result S) (x : A) (l : list A) (s s' : S) :
  forEach f (x :: l) s = Ok s' ↔ ∃ s1, f s x = Ok s1 ∧ forEach f l s1 = Ok s'.
Proof. simpl. apply bind_Ok. Qed.

Lemma forEach_app {S A} (f : S → A → Result S) (l1 l2 : list A) (s s' : S) :
  forEach f (l1 ++ l2) s = Ok s' ↔ ∃ s1, forEach f l1 s = Ok s1 ∧ forEach f l2 s1 = Ok s'.
Proof.
  revert s. induction l1 as [|x l1 IH]; intros s; simpl.
  - split; [eauto|]. by intros (? & [= <-] & ?).
  - rewrite !bind_Ok. split.
    + intros (s1 & Hx & (s2 & H1 & H2)%IH). exists s2. split; [|done].
      apply bind_Ok. eauto.
    + intros (s2 & (s1 & Hx & H1)%bind_Ok & H2). exists s1. split; [done|].
      apply IH. eauto.
Qed.

(** A property of the state kept by every iteration holds at the end. *)
Lemma forEach_invariant {S A} (f : S → A → Result S) (I : S → Prop)
    (l : list A) (s s' : S) :
  (∀ s x s', x ∈ l → I s → f s x = Ok s' → I s') →
  I s → forEach f l s = Ok s' → I s'.
Proof.
  revert s. induction l as [|x l IH]; intros s Hstep Hs; simpl.
  - by intros [= <-].
  - intros (s1 & Hx & Hl)%bind_Ok. eapply IH; [| |exact Hl].
    + intros ? y ? Hy. apply Hstep. by right.
    + eapply Hstep; [by left|exact Hs|exact Hx].
Qed.

(** What one iteration does, read off a successful outcome. *)
Lemma assignOne_Ok (drivers : list Driver) (params : SimulationParams)
    (rand : nat → Q) (st st' : LoopState) (order : PopulatedOrder) :
  assignOne drivers params rand st order = Ok st' →
  (availableDriver drivers (driverWorkload st) (maxHoursPerDriver params) = None
     ∧ st' = st) ∨
  (∃ d route,
     availableDriver drivers (driverWorkload st) (maxHoursPerDriver params) = Some d ∧
     p_route order = Some route ∧
     let a := mkAssignment (p_order order) d route (rand (draws st)) in
     st' = {| assignments := assignments st ++ [a];
              driverWorkload :=
                alter (λ w, (w + actualDeliveryTime a / 60)%Q)
                      (driver_id d) (driverWorkload st);
              draws := S (draws st) |}).
Proof.
  unfold assignOne.
  destruct (availableDriver _ _ _) as [d|]; [|intros [= <-]; by left].
  destruct (p_route order) as [route|]; [|done].
  intros [= <-]. right. by exists d, route.
Qed.

(** An iteration fails only on an order whose route reference is dangling. *)
Lemma assignOne_total (drivers : list Driver) (params : SimulationParams)
    (rand : nat → Q) (st : LoopState) (order : PopulatedOrder) :
  is_Some (p_route order) → ∃ st', assignOne drivers params rand st order = Ok st'.
Proof.
  intros [route Hr]. unfold assignOne. rewrite Hr.
  destruct (availableDriver _ _ _); eauto.
Qed.

Lemma forEach_assignOne_total (drivers : list Driver) (params : SimulationParams)
    (rand : nat → Q) (l : list PopulatedOrder) (st : LoopState) :
  Forall (λ o, is_Some (p_route o)) l →
  ∃ st', forEach (assignOne drivers params rand) l st = Ok st'.
Proof.
  intros Hl. revert st. induction Hl as [|o l Ho _ IH]; intros st; simpl; [eauto|].
  destruct (assignOne_total drivers params rand st o Ho) as [st1 ->]. simpl. apply IH.
Qed.



Lemma forEach_assignOne_produced (drivers : list Driver) (params : SimulationParams)
    (rand : nat → Q) (orders l : list PopulatedOrder) (st st' : LoopState) :
  l ⊆ orders →
  Forall (produced drivers params rand orders) (assignments st) →
  forEach (assignOne drivers params rand) l st = Ok st' →
  Forall (produced drivers params rand orders) (assignments st').
Proof.
  intros Hsub.
  apply (forEach_invariant _ (λ s, Forall (produced drivers params rand orders) (assignments s))).
  intros s o s' Ho Hs [[_ ->]|(d & route & Hd & Hr & ->)]%assignOne_Ok; [done|].
  simpl. apply Forall_app. split; [done|]. constructor; [|constructor].
  exists o, route, d, (driverWorkload s), (draws s). auto.
Qed.

Lemma by_value_desc_key (a b : PopulatedOrder) :
  (by_value_desc a b == - valueRs (p_order a) - - valueRs (p_order b))%Q.
Proof. unfold by_value_desc. lra. Qed.

Lemma sortedOrders_perm (orders : list PopulatedOrder) : sortedOrders orders ≡ₚ orders.
Proof. apply sort_perm. Qed.

Lemma assignDeliveries_Ok (drivers : list Driver) (orders : list PopulatedOrder)
    (params : SimulationParams) (rand : nat → Q) (asg : list DeliveryAssignment) :
  assignDeliveries drivers orders params rand = Ok asg ↔
  ∃ st, assignLoop drivers orders params rand = Ok st ∧ assignments st = asg.
Proof.
  unfold assignDeliveries. rewrite bind_Ok.
  split; intros (st & H & E); exists st; split; auto; congruence.
Qed.

Lemma assignDeliveries_Ok_total (drivers : list Driver) (orders : list PopulatedOrder)
    (params : SimulationParams) (rand : nat → Q) (e : SimError) :
  assignDeliveries drivers orders params rand = Throw e →
  Forall (λ o, is_Some (p_route o)) orders → False.
Proof.
  intros He Hall. unfold assignDeliveries, assignLoop in He.
  destruct (forEach_assignOne_total drivers params rand (sortedOrders orders)
              (initialState drivers)) as [st Hst].
  - unfold sortedOrders. by rewrite sort_perm.
  - by rewrite Hst in He.
Qed.

Lemma assignDeliveries_produced (drivers : list Driver) (orders : list PopulatedOrder)
    (params : SimulationParams) (rand : nat → Q) (asg : list DeliveryAssignment) :
  assignDeliveries drivers orders params rand = Ok asg →
  Forall (produced drivers params rand orders) asg.
Proof.
  intros (st & Hloop & <-)%assignDeliveries_Ok.
  eapply forEach_assignOne_produced; [| |exact Hloop]; [|constructor].
  intros o Ho. by rewrite <- (sortedOrders_perm orders).
Qed.


(** ** The assignment policy *)

(** C1.  The loop of [assignDeliveries] runs over the orders whose status is
    Pending or In Progress, sorted by descending [valueRs] with orders of
    equal value kept in input order.  For each order it selects the driver
    under the cap of least workload, the first such driver of the roster on a
    tie, and pushes an assignment for that driver; when no driver is under
    the cap the iteration changes nothing and raises nothing.  (An order
    whose route reference is dangling makes the iteration throw once a driver
    is selected; the loop returns whenever every route reference resolves.) *)
Theorem C1_assignment_policy (db : Database) (params : SimulationParams) (rand : nat → Q) :
  let drivers := limit (numberOfDrivers params) (db_drivers db) in
  let cap := maxHoursPerDriver params in
  let queue := sortedOrders (find_orders db) in
  assignLoop drivers (find_orders db) params rand
    = forEach (assignOne drivers params rand) queue (initialState drivers) ∧
  map p_order queue ≡ₚ List.filter (λ o, eligible_status (status o)) (db_orders db) ∧
  (∀ s, eligible_status s = true ↔ s = Pending ∨ s = InProgress) ∧
  StronglySorted (λ a b, (valueRs (p_order b) <= valueRs (p_order a))%Q) queue ∧
  (∀ v, List.filter (λ o, Qeq_bool (valueRs (p_order o)) v) queue
        = List.filter (λ o, Qeq_bool (valueRs (p_order o)) v) (find_orders db)) ∧
  (∀ st order,
     (none_under_cap drivers (driverWorkload st) cap →
        assignOne drivers params rand st order = Ok st) ∧
     (∀ d route,
        least_loaded drivers (driverWorkload st) cap d → p_route order = Some route →
        ∃ st' a, assignOne drivers params rand st order = Ok st' ∧
          assignments st' = assignments st ++ [a] ∧
          orderId a = order_id (p_order order) ∧ driverId a = driver_id d) ∧
     (∀ d,
        least_loaded drivers (driverWorkload st) cap d → p_route order = None →
        assignOne drivers params rand st order = Throw TypeError) ∧
     (∀ st', assignOne drivers params rand st order = Ok st' →
        (none_under_cap drivers (driverWorkload st) cap ∧ st' = st) ∨
        (∃ d a, least_loaded drivers (driverWorkload st) cap d ∧
           assignments st' = assignments st ++ [a] ∧
           orderId a = order_id (p_order order) ∧ driverId a = driver_id d))) ∧
  (Forall (λ o, is_Some (p_route o)) (find_orders db) →
     ∃ st, assignLoop drivers (find_orders db) params rand = Ok st).
Proof.
  intros drivers cap queue. split; [done|]. split.
  { unfold queue. rewrite sortedOrders_perm. unfold find_orders.
    rewrite map_map. simpl. by rewrite map_id. }
  split; [intros []; simpl; split; intros H; auto; try discriminate; destruct H; discriminate|].
  split.
  { pose proof (sort_sorted _ _ by_value_desc_key (find_orders db)) as Hs.
    fold (sortedOrders (find_orders db)) in Hs. fold queue in Hs.
    induction Hs as [|a l Hl IH Ha]; constructor; [done|].
    eapply Forall_impl; [exact Ha|]. simpl. intros; lra. }
  split.
  { intros v. apply (sort_stable _ _ by_value_desc_key).
    intros y z Hy%Qeq_bool_iff Hz%Qeq_bool_iff. lra. }
  split.
  - intros st order. split; [|split; [|split]].
    + intros Hnone%availableDriver_None. unfold assignOne. fold cap. by rewrite Hnone.
    + intros d route Hd%availableDriver_spec Hr. unfold assignOne. fold cap.
      rewrite Hd, Hr. eexists _, _. split; [done|]. simpl. done.
    + intros d Hd%availableDriver_spec Hr. unfold assignOne. fold cap.
      by rewrite Hd, Hr.
    + intros st' [[Hnone ->]|(d & route & Hd & Hr & ->)]%assignOne_Ok.
      * left. split; [|done]. by apply availableDriver_None.
      * right. exists d. eexists. split; [by apply availableDriver_spec|]. simpl. done.
  - intros Hall. apply forEach_assignOne_total.
    unfold sortedOrders. by rewrite sort_perm.
Qed.

Lemma C1_assignment_policy_witness :
  ∃ st, assignLoop (limit 5 [Sample.alice; Sample.bob]) (find_orders Sample.db)
          Sample.params Sample.steady = Ok st ∧
        map orderId (assignments st) = ["o2"; "o3"; "o1"] ∧
        map driverId (assignments st) = ["d1"; "d2"; "d1"].
Proof.
  destruct (C1_assignment_policy Sample.db Sample.params Sample.steady)
    as (_ & _ & _ & _ & _ & _ & Htotal).
  destruct Htotal as [st Hst].
  - repeat constructor; by eexists.
  - exists st. split; [exact Hst|].
    vm_compute in Hst. injection Hst as <-. by vm_compute.
Defined.

(** ** The figures of one assignment *)

Lemma estimatedTime_factors (d : Driver) (route : Route) :
  (estimatedTime d route ==
     baseTimeMinutes route * fatigue_factor d * traffic_factor (trafficLevel route))%Q.
Proof.
  unfold estimatedTime, fatigue_factor, traffic_factor.
  destruct (JS.gtb (pastWeekHours d) (8 * 7)) eqn:E,
           (Qlt_le_dec 56 (pastWeekHours d)) as [H|H].
  - destruct (trafficLevel route); lra.
  - apply gtb_gt in E. exfalso. assert (8 * 7 == 56)%Q by reflexivity. lra.
  - apply gtb_le in E. exfalso. assert (8 * 7 == 56)%Q by reflexivity. lra.
  - destruct (trafficLevel route); lra.
Qed.

Lemma assignment_produced (drivers : list Driver) (orders : list PopulatedOrder)
    (params : SimulationParams) (rand : nat → Q) (asg : list DeliveryAssignment)
    (a : DeliveryAssignment) :
  assignDeliveries drivers orders params rand = Ok asg → a ∈ asg →
  produced drivers params rand orders a.
Proof.
  intros Hrun%assignDeliveries_produced Ha.
  rewrite Forall_forall in Hrun. by apply Hrun.
Qed.

(** C2.  The estimated delivery time of every assignment is the base time of
    the route, times 1.3 exactly when the chosen driver worked more than 56
    hours in the past week, times 1.5, 1.2 or 1 for High, Medium or Low
    traffic; 60 past-week hours, High traffic and a base time of 40 give 78. *)
Theorem C2_estimated_time (drivers : list Driver) (orders : list PopulatedOrder)
    (params : SimulationParams) (rand : nat → Q) (asg : list DeliveryAssignment)
    (a : DeliveryAssignment) :
  assignDeliveries drivers orders params rand = Ok asg → a ∈ asg →
  (∃ order route d wl,
     order ∈ orders ∧ p_route order = Some route ∧
     availableDriver drivers wl (maxHoursPerDriver params) = Some d ∧
     orderId a = order_id (p_order order) ∧ a_routeId a = route_id route ∧
     driverId a = driver_id d ∧
     (estimatedDeliveryTime a ==
        baseTimeMinutes route * fatigue_factor d * traffic_factor (trafficLevel route))%Q ∧
     ((56 < pastWeekHours d)%Q → fatigue_factor d = (13 # 10)%Q) ∧
     ((pastWeekHours d <= 56)%Q → fatigue_factor d = 1%Q)) ∧
  (∀ d route,
     (pastWeekHours d == 60)%Q → trafficLevel route = High →
     (baseTimeMinutes route == 40)%Q → (estimatedTime d route == 78)%Q).
Proof.
  intros Hrun Ha. split.
  - destruct (assignment_produced _ _ _ _ _ _ Hrun Ha)
      as (order & route & d & wl & u & Ho & Hr & Hd & ->).
    exists order, route, d, wl. simpl.
    do 6 (split; [done|]). split; [apply estimatedTime_factors|].
    unfold fatigue_factor.
    destruct (Qlt_le_dec 56 (pastWeekHours d)); split; intros; (done || lra).
  - intros d route Hd Ht Hb. rewrite estimatedTime_factors.
    unfold fatigue_factor. rewrite Ht. simpl.
    destruct (Qlt_le_dec 56 (pastWeekHours d)); lra.
Qed.

Lemma Sample_run :
  assignDeliveries Sample.pool (find_orders Sample.db) Sample.params Sample.steady
  = Ok Sample.asg_steady.
Proof. by vm_compute. Qed.

Lemma Sample_bob_mall : Sample.bob_mall ∈ Sample.asg_steady.
Proof. apply list_elem_of_lookup. by exists 1%nat. Qed.

Lemma Sample_alice_loop : Sample.alice_loop ∈ Sample.asg_steady.
Proof. apply list_elem_of_lookup. by exists 0%nat. Qed.

Lemma C2_estimated_time_witness :
  (∃ order route d wl,
     order ∈ find_orders Sample.db ∧ p_route order = Some route ∧
     availableDriver Sample.pool wl (maxHoursPerDriver Sample.params) = Some d ∧
     orderId Sample.bob_mall = order_id (p_order order) ∧
     a_routeId Sample.bob_mall = route_id route ∧
     driverId Sample.bob_mall = driver_id d ∧
     (estimatedDeliveryTime Sample.bob_mall ==
        baseTimeMinutes route * fatigue_factor d * traffic_factor (trafficLevel route))%Q ∧
     ((56 < pastWeekHours d)%Q → fatigue_factor d = (13 # 10)%Q) ∧
     ((pastWeekHours d <= 56)%Q → fatigue_factor d = 1%Q)) ∧
  (∀ d route,
     (pastWeekHours d == 60)%Q → trafficLevel route = High →
     (baseTimeMinutes route == 40)%Q → (estimatedTime d route == 78)%Q).
Proof.
  exact (C2_estimated_time Sample.pool (find_orders Sample.db) Sample.params
           Sample.steady Sample.asg_steady Sample.bob_mall
           Sample_run Sample_bob_mall).
Defined.

(** C3.  An assignment is on time exactly when its actual delivery time, the
    estimate perturbed by one draw and rounded to an integer, is at most the
    base time of the route plus 10; the estimate does not enter the
    threshold. *)
Theorem C3_on_time (drivers : list Driver) (orders : list PopulatedOrder)
    (params : SimulationParams) (rand : nat → Q) (asg : list DeliveryAssignment)
    (a : DeliveryAssignment) :
  assignDeliveries drivers orders params rand = Ok asg → a ∈ asg →
  ∃ order route i,
    order ∈ orders ∧ p_route order = Some route ∧
    orderId a = order_id (p_order order) ∧ a_routeId a = route_id route ∧
    actualDeliveryTime a = simulateActualDeliveryTime (estimatedDeliveryTime a) (rand i) ∧
    (∃ z : Z, actualDeliveryTime a = inject_Z z) ∧
    (isOnTime a = true ↔ (actualDeliveryTime a <= baseTimeMinutes route + 10)%Q).
Proof.
  intros Hrun Ha.
  destruct (assignment_produced _ _ _ _ _ _ Hrun Ha)
    as (order & route & d & wl & i & Ho & Hr & Hd & ->).
  exists order, route, i. simpl. do 5 (split; [done|]). split.
  - unfold simulateActualDeliveryTime, JS.round. eauto.
  - apply Qle_bool_iff.
Qed.

Lemma C3_on_time_witness :
  ∃ order route i,
    order ∈ find_orders Sample.db ∧ p_route order = Some route ∧
    orderId Sample.bob_mall = order_id (p_order order) ∧
    a_routeId Sample.bob_mall = route_id route ∧
    actualDeliveryTime Sample.bob_mall
      = simulateActualDeliveryTime (estimatedDeliveryTime Sample.bob_mall) (Sample.steady i) ∧
    (∃ z : Z, actualDeliveryTime Sample.bob_mall = inject_Z z) ∧
    (isOnTime Sample.bob_mall = true ↔
       (actualDeliveryTime Sample.bob_mall <= baseTimeMinutes route + 10)%Q).
Proof.
  exact (C3_on_time Sample.pool (find_orders Sample.db) Sample.params
           Sample.steady Sample.asg_steady Sample.bob_mall
           Sample_run Sample_bob_mall).
Defined.

(** C4.  Fuel cost is 5 per km plus 2 per km on a High-traffic route only
    (10 km cost 70 on High and 50 on Low traffic); the penalty is 50 exactly
    when the assignment is late, else 0; the bonus is a tenth of the order
    value exactly when the value exceeds 1000 and the assignment is on time,
    else 0; bonus and penalty are never both nonzero. *)
Theorem C4_costs (drivers : list Driver) (orders : list PopulatedOrder)
    (params : SimulationParams) (rand : nat → Q) (asg : list DeliveryAssignment)
    (a : DeliveryAssignment) :
  assignDeliveries drivers orders params rand = Ok asg → a ∈ asg →
  (∃ order route,
     order ∈ orders ∧ p_route order = Some route ∧
     orderId a = order_id (p_order order) ∧ a_routeId a = route_id route ∧
     orderValue a = valueRs (p_order order) ∧
     (trafficLevel route = High →
        (fuelCost a == distanceKm route * 5 + distanceKm route * 2)%Q) ∧
     (trafficLevel route ≠ High → (fuelCost a == distanceKm route * 5)%Q)) ∧
  ((penalty a == 50)%Q ↔ isOnTime a = false) ∧
  (isOnTime a = true → (penalty a == 0)%Q) ∧
  ((1000 < orderValue a)%Q ∧ isOnTime a = true → (bonus a == orderValue a * (1 # 10))%Q) ∧
  (¬ ((1000 < orderValue a)%Q ∧ isOnTime a = true) → (bonus a == 0)%Q) ∧
  ¬ (¬ (bonus a == 0)%Q ∧ ¬ (penalty a == 0)%Q) ∧
  (∀ route, (distanceKm route == 10)%Q →
     (trafficLevel route = High → (calculateFuelCost route == 70)%Q) ∧
     (trafficLevel route = Low → (calculateFuelCost route == 50)%Q)).
Proof.
  intros Hrun Ha.
  destruct (assignment_produced _ _ _ _ _ _ Hrun Ha)
    as (order & route & d & wl & i & Ho & Hr & Hd & ->).
  simpl. set (onTime := Qle_bool _ _). split.
  { exists order, route. do 5 (split; [done|]). unfold calculateFuelCost.
    split; intros Ht; destruct (trafficLevel route); try done; lra. }
  assert (∀ v, (1000 < v)%Q ∧ onTime = true →
            (calculateBonus v onTime == v * (1 # 10))%Q) as Hbonus.
  { intros v [Hv ->]. unfold calculateBonus.
    apply gtb_gt in Hv. rewrite Hv. simpl. reflexivity. }
  assert (∀ v, ¬ ((1000 < v)%Q ∧ onTime = true) →
            (calculateBonus v onTime == 0)%Q) as Hnobonus.
  { intros v Hv. unfold calculateBonus.
    destruct (JS.gtb v 1000) eqn:E, onTime; simpl; try reflexivity.
    apply gtb_gt in E. tauto. }
  split; [destruct onTime; split; (done || discriminate)|].
  split; [by intros ->|]. split; [apply Hbonus|]. split; [apply Hnobonus|].
  split.
  { intros [Hb Hp]. destruct onTime; [by apply Hp|].
    apply Hb, Hnobonus. by intros [_ ?]. }
  intros r Hr10. unfold calculateFuelCost. split; intros ->; lra.
Qed.

Lemma C4_costs_witness :
  (fuelCost Sample.bob_mall == 70)%Q ∧ (penalty Sample.bob_mall == 50)%Q ∧
  (bonus Sample.bob_mall == 0)%Q ∧
  (fuelCost Sample.alice_loop == 50)%Q ∧ (penalty Sample.alice_loop == 0)%Q ∧
  (bonus Sample.alice_loop == 150)%Q.
Proof.
  pose proof (C4_costs Sample.pool (find_orders Sample.db) Sample.params
                Sample.steady Sample.asg_steady Sample.bob_mall
                Sample_run Sample_bob_mall) as (_ & Hp & _ & _ & Hb & _ & Hf).
  pose proof (C4_costs Sample.pool (find_orders Sample.db) Sample.params
                Sample.steady Sample.asg_steady Sample.alice_loop
                Sample_run Sample_alice_loop) as (_ & _ & Hp' & Hb' & _ & _ & Hf').
  split; [by apply (Hf Sample.mall_road)|].
  split; [by apply Hp|].
  split; [apply Hb; by intros [_ ?]|].
  split; [by apply (Hf' Sample.loop_road)|].
  split; [by apply Hp'|].
  rewrite Hb'; [reflexivity|]. split; [|done]. by vm_compute.
Defined.

(** ** Aggregation *)

#[global] Instance round2_proper : Proper (Qeq ==> Qeq) round2.
Proof. intros x y H. unfold round2. by rewrite H. Qed.

#[global] Instance round1_proper : Proper (Qeq ==> Qeq) round1.
Proof. intros x y H. unfold round1. by rewrite H. Qed.


Lemma round1_spec (x : Q) :
  (∃ z : Z, round1 x = (inject_Z z / 10)%Q) ∧
  (x - (1 # 20) < round1 x ∧ round1 x <= x + (1 # 20))%Q.
Proof.
  split; [unfold round1, JS.round; eauto|].
  unfold round1, Qdiv. change (/ 10)%Q with (1 # 10)%Q.
  pose proof (round_bounds (x * 10)). split; lra.
Qed.


Lemma within_a_tenth (x y : Q) : (x == round1 y)%Q → (Qabs (x - y) < 1 # 10)%Q.
Proof.
  intros ->. destruct (round1_spec y) as [_ [Hlo Hhi]].
  apply Qabs_Qlt_condition. split; lra.
Qed.

Lemma foldl_accumulate (asg : list DeliveryAssignment) (t : Totals) :
  let t' := foldl accumulate t asg in
  (t_totalProfit t' == t_totalProfit t + sumQ (map deliveryProfit asg))%Q ∧
  t_onTime t' = (t_onTime t + count_on_time asg)%nat ∧
  t_late t' = (t_late t + (length asg - count_on_time asg))%nat ∧
  (count_on_time asg <= length asg)%nat ∧
  (t_totalBaseFuelCost t' ==
     t_totalBaseFuelCost t + sumQ (map fuelCost asg) * (7 # 10))%Q ∧
  (t_totalTrafficSurcharge t' ==
     t_totalTrafficSurcharge t + sumQ (map fuelCost asg) * (3 # 10))%Q.
Proof.
  revert t. induction asg as [|a asg IH]; intros t; simpl.
  - unfold count_on_time. simpl. repeat split; (lra || lia).
  - destruct (IH (accumulate t a)) as (Hp & Ho & Hl & Hc & Hb & Hs).
    unfold count_on_time in *. simpl in *.
    rewrite Hp, Ho, Hl, Hb, Hs. clear Hp Ho Hl Hb Hs.
    destruct (isOnTime a); simpl; repeat split; (lra || lia).
Qed.

Lemma calculateResults_totals (asg : list DeliveryAssignment) :
  let res := calculateResults asg in
  (totalProfit res == round2 (sumQ (map deliveryProfit asg)))%Q ∧
  onTimeDeliveries res = count_on_time asg ∧
  lateDeliveries res = (length asg - count_on_time asg)%nat ∧
  (count_on_time asg <= length asg)%nat ∧
  (baseCost (fuelCostBreakdown res) == round2 (sumQ (map fuelCost asg) * (7 # 10)))%Q ∧
  (trafficSurcharge (fuelCostBreakdown res)
     == round2 (sumQ (map fuelCost asg) * (3 # 10)))%Q ∧
  (total (fuelCostBreakdown res) == round2 (sumQ (map fuelCost asg)))%Q.
Proof.
  destruct (foldl_accumulate asg zeroTotals) as (Hp & Ho & Hl & Hc & Hb & Hs).
  simpl in *. fold (round2 (t_totalProfit (foldl accumulate zeroTotals asg))).
  fold (round2 (t_totalBaseFuelCost (foldl accumulate zeroTotals asg))).
  fold (round2 (t_totalTrafficSurcharge (foldl accumulate zeroTotals asg))).
  fold (round2 (t_totalBaseFuelCost (foldl accumulate zeroTotals asg)
                + t_totalTrafficSurcharge (foldl accumulate zeroTotals asg))).
  rewrite Hp, Ho, Hl, Hb, Hs. repeat split; try done; apply round2_proper; lra.
Qed.

Lemma runSimulation_Ok (db : Database) (params : SimulationParams) (rand : nat → Q)
    (res : SimulationResult) :
  runSimulation db params rand = Ok res ↔
  limit (numberOfDrivers params) (db_drivers db) ≠ [] ∧ db_routes db ≠ [] ∧
  find_orders db ≠ [] ∧
  ∃ asg, assignDeliveries (limit (numberOfDrivers params) (db_drivers db))
           (find_orders db) params rand = Ok asg ∧
         res = calculateResults asg.
Proof.
  unfold runSimulation.
  destruct (limit _ (db_drivers db)) as [|d ds] eqn:Ed; simpl;
    [split; [done | by intros [? _]]|].
  destruct (db_routes db) as [|r rs]; simpl;
    [split; [done | by intros (_ & ? & _)]|].
  destruct (find_orders db) as [|o os]; simpl;
    [split; [done | by intros (_ & _ & ? & _)]|].
  rewrite bind_Ok. split.
  - intros (asg & Ha & [= <-]). eauto 10.
  - intros (_ & _ & _ & asg & Ha & ->). eauto.
Qed.


(** ** Figures in double precision *)

(** On finite doubles [F64.round] is [Math.round] of the value denoted: at
    ties, next to ties, on negative numbers and around [2^52] it returns the
    double of the integer that [JS.round] gives on the rational. *)
Lemma F64_round_exact :
  Forall (λ x, (F64.to_Q (F64.round x) == JS.round (F64.to_Q x))%Q)
    [0; 0.5; 0.49999999999999994; 0.5000000000000001; 1.5; 2.5; 3.5;
     -0.3; -0.5; -0.7; -1.5; -2.5; -3.5; -0.49999999999999994; -0.5000000000000001;
     61.5; 61.499999999999993; 430.49999999999994; 287.49999999999994;
     787.4999999999999; 787.5; 105247.49999999999; 123456789.5;
     1125899906842623.875; -1125899906842623.875; -1125899906842623.5;
     2251799813685247.5; 2251799813685248.5; -2251799813685248.5;
     4503599627370494.5; 4503599627370495.5; -4503599627370495.5;
     4503599627370496; 4503599627370497; 9007199254740992; -9007199254740992]%float.
Proof. repeat constructor; by vm_compute. Qed.

Lemma F64_round_examples :
  F64.round 2.5 = 3%float ∧ F64.round (-2.5) = (-2)%float ∧
  F64.round 0.49999999999999994 = 0%float ∧
  F64.round 787.4999999999999 = 787%float ∧ F64.round 787.5 = 788%float.
Proof. repeat split; by vm_compute. Qed.

(** The double [1.025] that the draw 0.625 yields as factor lies below the
    rational 1.025: an estimate of 60 minutes is simulated as 61 minutes
    where the rational reading gives 61.5, rounded to 62, and an estimate of
    420 minutes as 430 instead of 431.  The rounded time of the rational
    reading can so be one minute off the engine's. *)
Lemma simulated_time_in_double_precision :
  F64.simulateActualDeliveryTime 60 0.625 = 61%float ∧
  (simulateActualDeliveryTime 60 (5 # 8) == 62)%Q ∧
  F64.simulateActualDeliveryTime 420 0.625 = 430%float ∧
  (simulateActualDeliveryTime 420 (5 # 8) == 431)%Q.
Proof. repeat split; by vm_compute. Qed.

(** On the deliveries of [Cases] the two readings yield the same times,
    punctuality, order value, fuel cost and penalty; the bonus of 10% of
    1002.25 is the double next to 100.225. *)
Lemma readings_of_the_cases :
  Forall (λ '(a, b),
    F64.isOnTime a = isOnTime b ∧
    (F64.to_Q (F64.estimatedDeliveryTime a) == estimatedDeliveryTime b)%Q ∧
    (F64.to_Q (F64.actualDeliveryTime a) == actualDeliveryTime b)%Q ∧
    (F64.to_Q (F64.orderValue a) == orderValue b)%Q ∧
    (F64.to_Q (F64.fuelCost a) == fuelCost b)%Q ∧
    (F64.to_Q (F64.penalty a) == penalty b)%Q ∧
    (Qabs (F64.to_Q (F64.bonus a) - bonus b) < 1 # 1000000000)%Q)
  [(Cases.plain_delivery, Cases.plain_delivery_Q);
   (Cases.short_delivery, Cases.short_delivery_Q);
   (Cases.late_delivery, Cases.late_delivery_Q)].
Proof. repeat constructor; by vm_compute. Qed.



Lemma Q_of_nat_le (a b : nat) : (a <= b)%nat ↔ (Q_of_nat a <= Q_of_nat b)%Q.
Proof. unfold Q_of_nat. rewrite <- Zle_Qle. lia. Qed.

Lemma Q_of_nat_lt (a b : nat) : (a < b)%nat ↔ (Q_of_nat a < Q_of_nat b)%Q.
Proof. unfold Q_of_nat. rewrite <- Zlt_Qlt. lia. Qed.

Lemma Q_of_nat_mul (a b : nat) : (Q_of_nat (a * b) == Q_of_nat a * Q_of_nat b)%Q.
Proof. unfold Q_of_nat. by rewrite Nat2Z.inj_mul, inject_Z_mult. Qed.

(** A rounded value in [[0, 1)] is [0]. *)
Lemma round_zero_iff (x : Q) : (0 <= x)%Q → (JS.round x == 0 ↔ x < 1 # 2)%Q.
Proof.
  intros Hx. pose proof (round_bounds x) as [Hlo Hhi]. split.
  - intros H0. lra.
  - intros Hlt. pose proof (round_mono 0 x Hx) as Hge.
    change (JS.round 0) with 0%Q in Hge.
    unfold JS.round in *. set (z := Qfloor (x + (1 # 2))) in *.
    assert (z = 0%Z) as ->; [|reflexivity].
    assert (inject_Z z < inject_Z 1)%Q as Hz1 by (change (inject_Z 1) with 1%Q; lra).
    change 0%Q with (inject_Z 0) in Hge.
    rewrite <- Zlt_Qlt in Hz1. rewrite <- Zle_Qle in Hge. lia.
Qed.

Lemma ratio_bounds (a b : Q) :
  (0 <= a)%Q → (a <= b)%Q → (0 < b)%Q →
  (0 <= a / b ∧ a / b <= 1 ∧ a / b * b == a)%Q.
Proof.
  intros Ha Hab Hb.
  assert (a / b * b == a)%Q as Hq by (field; lra).
  split; [|split; [|done]].
  - apply Qle_shift_div_l; lra.
  - apply Qle_shift_div_r; lra.
Qed.

Lemma efficiency_facts (on late : nat) :
  let n := (on + late)%nat in
  let efficiency :=
    if (0 <? n)%nat then (Q_of_nat on / Q_of_nat n * 100)%Q else 0%Q in
  let score := (JS.round (efficiency * 10) / 10)%Q in
  ((0 < n)%nat → (score == round1 (100 * Q_of_nat on / Q_of_nat n))%Q) ∧
  (n = 0%nat → (score == 0)%Q) ∧
  (0 <= score ∧ score <= 100)%Q ∧
  ((score == 0)%Q ↔ n = 0%nat ∨ (2000 * on < n)%nat).
Proof.
  intros n efficiency score. unfold score, efficiency.
  destruct (0 <? n)%nat eqn:En.
  - apply Nat.ltb_lt in En.
    assert (0 < Q_of_nat n)%Q as HN by (by apply (Q_of_nat_lt 0 n)).
    assert (0 <= Q_of_nat on)%Q as HO by (apply (Q_of_nat_le 0 on); lia).
    assert (Q_of_nat on <= Q_of_nat n)%Q as HON by (apply Q_of_nat_le; lia).
    destruct (ratio_bounds _ _ HO HON HN) as (Hq0 & Hq1 & Hq).
    set (q := (Q_of_nat on / Q_of_nat n)%Q) in *.
    split; [|split; [|split]].
    + intros _. unfold round1. apply Qdiv_comp; [|reflexivity].
      apply round_proper. unfold q. field. lra.
    + lia.
    + pose proof (round_mono 0 (q * 100 * 10)) as H0.
      pose proof (round_mono (q * 100 * 10) 1000) as H1.
      change (JS.round 0) with 0%Q in H0. change (JS.round 1000) with 1000%Q in H1.
      unfold Qdiv. change (/ 10)%Q with (1 # 10)%Q. split; lra.
    + unfold Qdiv. change (/ 10)%Q with (1 # 10)%Q.
      assert (JS.round (q * 100 * 10) * (1 # 10) == 0 ↔ q * 100 * 10 < 1 # 2)%Q as ->.
      { rewrite <- round_zero_iff by lra. split; intros; lra. }
      rewrite Q_of_nat_lt, Q_of_nat_mul. change (Q_of_nat 2000) with 2000%Q.
      split.
      * intros Hlt. right. nra.
      * intros [?|Hlt]; [lia|]. nra.
  - apply Nat.ltb_ge in En. assert (n = 0)%nat as Hn by lia.
    assert (JS.round (0 * 10) / 10 == 0)%Q as Hs by reflexivity.
    split; [lia|]. split; [done|]. split; [rewrite Hs; lra|]. split; [by left | done].
Qed.

Lemma Sample_result :
  runSimulation Sample.db Sample.params Sample.steady = Ok Sample.result_steady.
Proof. by vm_compute. Qed.


Lemma Sample_result_late :
  runSimulation Sample.db_late Sample.params Sample.steady = Ok Sample.result_late.
Proof. by vm_compute. Qed.

Lemma Sample_run_late :
  assignDeliveries (limit (numberOfDrivers Sample.params) (db_drivers Sample.db_late))
    (find_orders Sample.db_late) Sample.params Sample.steady = Ok Sample.asg_late.
Proof. by vm_compute. Qed.

(** The efficiency score is [0] on a run that produced one, late,
    assignment: a score of [0] does not tell that nothing was assigned.
    And with 23 of 80 deliveries on time the share is 28.75%, which rounds
    to 28.8, but the engine reports 28.7: its quotient, multiplied by 100 and
    by 10 in doubles, is 287.49999999999994. *)
Lemma C6_zero_score_with_assignments :
  (runSimulation Sample.db_late Sample.params Sample.steady = Ok Sample.result_late ∧
   assignDeliveries (limit (numberOfDrivers Sample.params) (db_drivers Sample.db_late))
     (find_orders Sample.db_late) Sample.params Sample.steady = Ok Sample.asg_late ∧
   length Sample.asg_late = 1%nat ∧
   ¬ ((efficiencyScore Sample.result_late == 0)%Q ↔ Sample.asg_late = [])) ∧
  (let reported := F64.efficiencyScore (F64.calculateResults Cases.mixed_day) in
   F64.onTimeDeliveries (F64.calculateResults Cases.mixed_day) = 23%float ∧
   F64.lateDeliveries (F64.calculateResults Cases.mixed_day) = 57%float ∧
   (23 / 80 * 100 * 10 = 287.49999999999994)%float ∧
   reported = 28.7%float ∧
   (Qabs (F64.to_Q reported - (287 # 10)) < 1 # 1000000000)%Q ∧
   (round1 (100 * Q_of_nat 23 / Q_of_nat (23 + 57)) == 288 # 10)%Q ∧
   ¬ (F64.to_Q reported == round1 (100 * Q_of_nat 23 / Q_of_nat (23 + 57)))%Q ∧
   (Qabs (F64.to_Q reported - 100 * Q_of_nat 23 / Q_of_nat (23 + 57)) < 1 # 10)%Q ∧
   (efficiencyScore (calculateResults Cases.mixed_day_Q) == 288 # 10)%Q).
Proof.
  split.
  - split; [apply Sample_result_late|]. split; [apply Sample_run_late|].
    split; [done|]. intros [H _]. by specialize (H eq_refl).
  - repeat split; by vm_compute.
Qed.

Lemma runSimulation_counts (db : Database) (params : SimulationParams)
    (rand : nat → Q) (res : SimulationResult) :
  runSimulation db params rand = Ok res →
  ∃ asg,
    assignDeliveries (limit (numberOfDrivers params) (db_drivers db))
      (find_orders db) params rand = Ok asg ∧
    res = calculateResults asg ∧
    (onTimeDeliveries res + lateDeliveries res)%nat = length asg.
Proof.
  intros (_ & _ & _ & asg & Ha & ->)%runSimulation_Ok. exists asg.
  destruct (calculateResults_totals asg) as (_ & Ho & Hl & Hc & _).
  split; [done|]. split; [done|]. lia.
Qed.

(** C6 (amended).  The efficiency score differs by less than one tenth from
    100 times the share of on-time assignments, and is 0 when there is no
    assignment; it lies between 0 and 100; it is 0 when no assignment was
    produced, and otherwise exactly when fewer than one assignment in 2000 is
    on time, in particular when every assignment is late. *)
Theorem C6_efficiency_score (db : Database) (params : SimulationParams)
    (rand : nat → Q) (res : SimulationResult) :
  runSimulation db params rand = Ok res →
  ∃ asg,
    assignDeliveries (limit (numberOfDrivers params) (db_drivers db))
      (find_orders db) params rand = Ok asg ∧
    let on := onTimeDeliveries res in
    let n := (onTimeDeliveries res + lateDeliveries res)%nat in
    n = length asg ∧
    ((0 < n)%nat →
       (Qabs (efficiencyScore res - 100 * Q_of_nat on / Q_of_nat n) < 1 # 10)%Q) ∧
    (asg = [] → (efficiencyScore res == 0)%Q) ∧
    (0 <= efficiencyScore res ∧ efficiencyScore res <= 100)%Q ∧
    ((efficiencyScore res == 0)%Q ↔ asg = [] ∨ (2000 * on < n)%nat).
Proof.
  intros Hrun.
  destruct (runSimulation_counts db params rand res Hrun) as (asg & Ha & -> & Hn).
  exists asg. split; [done|]. intros on n.
  pose proof (efficiency_facts (t_onTime (foldl accumulate zeroTotals asg))
                (t_late (foldl accumulate zeroTotals asg))) as (H1 & H2 & H3 & H4).
  fold (calculateResults asg) in *.
  assert (n = 0%nat ↔ asg = []) as Hnil.
  { unfold n. rewrite Hn. destruct asg; simpl; split; (done || lia). }
  split; [exact Hn|]. split; [intros Hpos; by apply within_a_tenth, H1|].
  split; [intros ?%Hnil; by apply H2|].
  split; [exact H3|]. by rewrite <- Hnil.
Qed.

Lemma C6_efficiency_score_witness :
  (efficiencyScore Sample.result_late == 0)%Q ∧
  (Qabs (efficiencyScore Sample.result_steady - 100 * Q_of_nat 2 / Q_of_nat 3)
     < 1 # 10)%Q.
Proof.
  destruct (C6_efficiency_score Sample.db_late Sample.params Sample.steady
              Sample.result_late Sample_result_late) as (asg & Ha & _ & _ & _ & _ & H0).
  destruct (C6_efficiency_score Sample.db Sample.params Sample.steady
              Sample.result_steady Sample_result) as (asg' & _ & _ & H1 & _).
  split.
  - apply H0. right. vm_compute. lia.
  - apply H1. vm_compute. lia.
Defined.





Lemma Sample_breakdown :
  map fuelCost Sample.asg_steady = [50; 70; 50]%Q ∧
  (baseCost (fuelCostBreakdown Sample.result_steady) == 119)%Q ∧
  (trafficSurcharge (fuelCostBreakdown Sample.result_steady) == 51)%Q ∧
  (total (fuelCostBreakdown Sample.result_steady) == 170)%Q.
Proof. repeat split; by vm_compute. Qed.

(** ** Failure of a run *)

Lemma assignOne_Throw (drivers : list Driver) (params : SimulationParams)
    (rand : nat → Q) (st : LoopState) (order : PopulatedOrder) (e : SimError) :
  assignOne drivers params rand st order = Throw e →
  e = TypeError ∧ p_route order = None.
Proof.
  unfold assignOne. destruct (availableDriver _ _ _); [|done].
  destruct (p_route order); [done|]. by intros [= <-].
Qed.

Lemma forEach_assignOne_Throw (drivers : list Driver) (params : SimulationParams)
    (rand : nat → Q) (l : list PopulatedOrder) (st : LoopState) (e : SimError) :
  forEach (assignOne drivers params rand) l st = Throw e →
  e = TypeError ∧ ∃ order, order ∈ l ∧ p_route order = None.
Proof.
  revert st. induction l as [|o l IH]; intros st; simpl; [done|].
  destruct (assignOne drivers params rand st o) as [st1|e1] eqn:E; simpl.
  - intros (-> & o' & Ho' & Hr)%IH. split; [done|]. exists o'. split; [by right|done].
  - intros [= <-]. apply assignOne_Throw in E as [-> Hr].
    split; [done|]. exists o. split; [by left|done].
Qed.

Lemma assignDeliveries_Throw (drivers : list Driver) (orders : list PopulatedOrder)
    (params : SimulationParams) (rand : nat → Q) (e : SimError) :
  assignDeliveries drivers orders params rand = Throw e → e = TypeError.
Proof.
  unfold assignDeliveries, assignLoop.
  destruct (forEach _ _ _) as [st|e1] eqn:E; simpl; [done|].
  intros [= <-]. by apply forEach_assignOne_Throw in E as [-> _].
Qed.

Lemma limit_nil {A} (n : nat) (l : list A) : limit n l = [] ↔ l = [].
Proof. destruct n, l; simpl; split; done. Qed.

Lemma length_zero_nil {A} (l : list A) : (length l =? 0)%nat = true ↔ l = [].
Proof. destruct l; simpl; split; done. Qed.

Lemma find_orders_nil (db : Database) :
  find_orders db = [] ↔
  List.filter (λ o, eligible_status (status o)) (db_orders db) = [].
Proof.
  unfold find_orders.
  destruct (List.filter _ (db_orders db)); simpl; split; done.
Qed.

(** C9.  A run fails for insufficient data exactly when there is no driver,
    no route or no Pending or In Progress order; a failed run of any kind is
    answered with status 500, yields no result and stores nothing, and a
    result is stored only for a run that completed. *)
Theorem C9_insufficient_data (db : Database) (params : SimulationParams)
    (rand : nat → Q) (now : nat) :
  (runSimulation db params rand = Throw InsufficientData ↔
     db_drivers db = [] ∨ db_routes db = [] ∨
     List.filter (λ o, eligible_status (status o)) (db_orders db) = []) ∧
  (∀ e, runSimulation db params rand = Throw e →
     post_run db params rand now = (db, Status500 e)) ∧
  (∀ db' r, post_run db params rand now = (db', Json r) →
     runSimulation db params rand = Ok (rec_result r) ∧
     db_results db' = db_results db ++ [r]) ∧
  (∀ db' e, post_run db params rand now = (db', Status500 e) →
     runSimulation db params rand = Throw e ∧ db' = db).
Proof.
  split; [|split; [|split]].
  - rewrite <- (limit_nil (numberOfDrivers params) (db_drivers db)).
    rewrite <- find_orders_nil, <- !length_zero_nil.
    unfold runSimulation.
    destruct (length (limit _ _) =? 0)%nat; simpl; [by split; auto|].
    destruct (length (db_routes db) =? 0)%nat; simpl; [by split; auto|].
    destruct (length (find_orders db) =? 0)%nat; simpl; [by split; auto|].
    split; [|by intros [|[|]]].
    destruct (assignDeliveries _ _ _ _) as [asg|e] eqn:E; simpl; [done|].
    by apply assignDeliveries_Throw in E as ->.
  - intros e He. unfold post_run. by rewrite He.
  - intros db' r. unfold post_run.
    destruct (runSimulation db params rand); [|done].
    destruct (validators_pass _); [|done]. by intros [= <- <-].
  - intros db' e. unfold post_run.
    destruct (runSimulation db params rand).
    + by destruct (validators_pass _).
    + by intros [= <- <-].
Qed.

Lemma C9_insufficient_data_witness :
  runSimulation Sample.db_done Sample.params Sample.steady = Throw InsufficientData ∧
  post_run Sample.db_done Sample.params Sample.steady 0
  = (Sample.db_done, Status500 InsufficientData).
Proof.
  destruct (C9_insufficient_data Sample.db_done Sample.params Sample.steady 0)
    as (Hiff & Hfail & _).
  assert (runSimulation Sample.db_done Sample.params Sample.steady
          = Throw InsufficientData) as Hrun.
  { apply Hiff. right. right. reflexivity. }
  split; [exact Hrun | exact (Hfail _ Hrun)].
Defined.

(** ** The cap on hours *)

(** Every assignment of the final state was pushed by one iteration of the
    loop, run in the state that the orders before it left. *)
Lemma forEach_assignOne_origin (drivers : list Driver) (params : SimulationParams)
    (rand : nat → Q) (l : list PopulatedOrder) (st st' : LoopState)
    (a : DeliveryAssignment) :
  forEach (assignOne drivers params rand) l st = Ok st' →
  a ∈ assignments st' →
  a ∈ assignments st ∨
  ∃ l1 o l2 s1 s2,
    l = l1 ++ o :: l2 ∧
    forEach (assignOne drivers params rand) l1 st = Ok s1 ∧
    assignOne drivers params rand s1 o = Ok s2 ∧
    assignments s2 = assignments s1 ++ [a].
Proof.
  revert st. induction l as [|o l IH]; intros st; simpl.
  - intros [= <-]. by left.
  - intros (s1 & Ho & Hl)%bind_Ok Ha.
    destruct (IH _ Hl Ha) as [Hin|(l1 & o' & l2 & t1 & t2 & -> & Hl1 & Ho' & Hpush)].
    + pose proof Ho as [[_ ->]|(d & r & _ & _ & E)]%assignOne_Ok; [by left|].
      rewrite E in Hin. simpl in Hin.
      apply elem_of_app in Hin as [Hin|Hin%list_elem_of_singleton]; [by left|].
      right. exists [], o, l, st, s1. simpl. split; [done|]. split; [done|].
      split; [done|]. rewrite E. simpl. by rewrite Hin.
    + right. exists (o :: l1), o', l2, t1, t2. simpl. split; [done|].
      split; [|done]. apply bind_Ok. eauto.
Qed.

(** C10.  The driver of every assignment of a run has, in the state in which
    the loop selected it, a workload strictly below [maxHoursPerDriver]; the
    iteration then raises the workload by the actual delivery time in hours
    without any check, and on some inputs, with draws in [[0, 1)], the driver
    selected for an assignment starts the shift and is selected below the
    cap, leaves the iteration strictly above it, and ends the run strictly
    above it. *)
Theorem C10_soft_cap :
  (∀ drivers orders params rand final a,
     assignLoop drivers orders params rand = Ok final →
     a ∈ assignments final →
     ∃ before order after st st' d w,
       sortedOrders orders = before ++ order :: after ∧
       forEach (assignOne drivers params rand) before (initialState drivers) = Ok st ∧
       assignOne drivers params rand st order = Ok st' ∧
       assignments st' = assignments st ++ [a] ∧
       least_loaded drivers (driverWorkload st) (maxHoursPerDriver params) d ∧
       driverId a = driver_id d ∧
       driverWorkload st !! driverId a = Some w ∧
       (w < maxHoursPerDriver params)%Q ∧
       driverWorkload st' !! driverId a = Some (w + actualDeliveryTime a / 60)%Q) ∧
  (∃ db params rand final a before order after st st' d w w',
     let drivers := limit (numberOfDrivers params) (db_drivers db) in
     valid_draws rand ∧
     assignLoop drivers (find_orders db) params rand = Ok final ∧
     a ∈ assignments final ∧
     sortedOrders (find_orders db) = before ++ order :: after ∧
     forEach (assignOne drivers params rand) before (initialState drivers) = Ok st ∧
     assignOne drivers params rand st order = Ok st' ∧
     assignments st' = assignments st ++ [a] ∧
     d ∈ drivers ∧ driverId a = driver_id d ∧
     (currentShiftHours d < maxHoursPerDriver params)%Q ∧
     driverWorkload st !! driver_id d = Some w ∧
     (w < maxHoursPerDriver params)%Q ∧
     (0 < actualDeliveryTime a)%Q ∧
     driverWorkload st' !! driver_id d = Some (w + actualDeliveryTime a / 60)%Q ∧
     (maxHoursPerDriver params < w + actualDeliveryTime a / 60)%Q ∧
     driverWorkload final !! driver_id d = Some w' ∧
     (maxHoursPerDriver params < w')%Q).
Proof.
  split.
  - intros drivers orders params rand final a Hloop Ha.
    destruct (forEach_assignOne_origin _ _ _ _ _ _ _ Hloop Ha)
      as [Hin|(l1 & o & l2 & st & st' & Hq & Hl1 & Ho & Hpush)];
      [by apply elem_of_nil in Hin|].
    exists l1, o, l2, st, st'.
    pose proof Ho as [[_ ->]|(d & route & Hd & Hr & E)]%assignOne_Ok.
    { apply (f_equal length) in Hpush. rewrite length_app in Hpush.
      simpl in Hpush. lia. }
    rewrite E in Hpush. simpl in Hpush. apply app_inv_head in Hpush as [= <-].
    pose proof Hd as (k1 & k2 & w & _ & Hw & Hlt & _)%availableDriver_Some.
    exists d, w. do 3 (split; [done|]).
    split; [by rewrite E|]. split; [by apply availableDriver_spec|]. simpl.
    do 3 (split; [done|]). rewrite E. simpl. by rewrite lookup_alter_eq, Hw.
  - exists Sample.db, Sample.params_tight, Sample.steady, Sample.final_tight,
      Sample.bob_mall.
    exists (take 1 (sortedOrders (find_orders Sample.db))),
      (default (populate [] (Sample.order EmptyString 0 EmptyString Pending))
         (sortedOrders (find_orders Sample.db) !! 1%nat)),
      (drop 2 (sortedOrders (find_orders Sample.db))).
    destruct (forEach (assignOne Sample.pool Sample.params_tight Sample.steady)
                (take 1 (sortedOrders (find_orders Sample.db)))
                (initialState Sample.pool)) as [st|e] eqn:Est; [|by vm_compute in Est].
    destruct (assignOne Sample.pool Sample.params_tight Sample.steady st
                (default (populate [] (Sample.order EmptyString 0 EmptyString Pending))
                   (sortedOrders (find_orders Sample.db) !! 1%nat)))
      as [st'|e] eqn:Est'; [|vm_compute in Est; injection Est as <-; by vm_compute in Est'].
    exists st, st', Sample.bob, 0%Q, (0 + 78 / 60)%Q. simpl.
    vm_compute in Est. injection Est as <-.
    vm_compute in Est'. injection Est' as <-.
    split; [intros i; by vm_compute|].
    split; [by vm_compute|].
    split; [apply list_elem_of_lookup; by exists 1%nat|].
    split; [by vm_compute|].
    split; [by vm_compute|].
    split; [by vm_compute|].
    split; [by vm_compute|].
    split; [right; left|].
    repeat (split; [by vm_compute|]). by vm_compute.
Qed.

(** In the sample run under the one-hour cap Bob is selected at workload 0
    and leaves his iteration at 1.3 hours. *)
Lemma C10_soft_cap_witness :
  ∃ before order after st st' d w,
    sortedOrders (find_orders Sample.db) = before ++ order :: after ∧
    forEach (assignOne Sample.pool Sample.params_tight Sample.steady) before
      (initialState Sample.pool) = Ok st ∧
    assignOne Sample.pool Sample.params_tight Sample.steady st order = Ok st' ∧
    assignments st' = assignments st ++ [Sample.bob_mall] ∧
    least_loaded Sample.pool (driverWorkload st)
      (maxHoursPerDriver Sample.params_tight) d ∧
    driverId Sample.bob_mall = driver_id d ∧
    driverWorkload st !! driverId Sample.bob_mall = Some w ∧
    (w < maxHoursPerDriver Sample.params_tight)%Q ∧
    driverWorkload st' !! driverId Sample.bob_mall
    = Some (w + actualDeliveryTime Sample.bob_mall / 60)%Q.
Proof.
  apply (proj1 C10_soft_cap Sample.pool (find_orders Sample.db) Sample.params_tight
           Sample.steady Sample.final_tight Sample.bob_mall).
  - by vm_compute.
  - apply list_elem_of_lookup. by exists 1%nat.
Defined.

(** ** Two runs on the same inputs *)

Lemma fixed_part_mkAssignment (o : Order) (d : Driver) (route : Route) (u1 u2 : Q) :
  fixed_part (mkAssignment o d route u1) = fixed_part (mkAssignment o d route u2).
Proof. reflexivity. Qed.

Lemma assignOne_agree (drivers : list Driver) (params : SimulationParams)
    (rand1 rand2 : nat → Q) (n : nat) (st1 st2 st1' st2' : LoopState)
    (order : PopulatedOrder) :
  (∀ i, (i < n)%nat → rand1 i = rand2 i) →
  agree n st1 st2 →
  assignOne drivers params rand1 st1 order = Ok st1' →
  assignOne drivers params rand2 st2 order = Ok st2' →
  agree n st1' st2'.
Proof.
  intros Hrand [(<- & Hdraws & Hlen)|(Hl1 & Hl2 & Hfix & Hpre)] H1 H2.
  - apply assignOne_Ok in H1 as [[Hn1 ->]|(d1 & r1 & Hd1 & Hr1 & ->)];
      apply assignOne_Ok in H2 as [[Hn2 ->]|(d2 & r2 & Hd2 & Hr2 & ->)];
      try congruence.
    + by left.
    + assert (d2 = d1) as -> by congruence. assert (r2 = r1) as -> by congruence.
      destruct (decide (length (assignments st1) < n)%nat) as [Hlt|Hge].
      * left. rewrite Hdraws, (Hrand _ Hlt). simpl.
        split; [done|]. rewrite length_app. simpl. lia.
      * right. simpl. rewrite !length_app. simpl.
        assert (length (assignments st1) = n) as Hn by lia.
        split; [lia|]. split; [lia|]. split.
        -- rewrite !map_app. simpl. by rewrite (fixed_part_mkAssignment _ _ _ _ (rand2 (draws st1))).
        -- rewrite <- Hn. by rewrite !take_app_length.
  - assert (∀ rand st st',
              (n < length (assignments st))%nat →
              assignOne drivers params rand st order = Ok st' →
              (n < length (assignments st'))%nat ∧
              take (S n) (map fixed_part (assignments st'))
                = take (S n) (map fixed_part (assignments st)) ∧
              take n (assignments st') = take n (assignments st)) as Hkeep.
    { intros rand st st' Hl [[_ ->]|(d & r & _ & _ & ->)]%assignOne_Ok; [done|].
      simpl. rewrite length_app, map_app. simpl. split; [lia|].
      rewrite !take_app_le; [done|lia|rewrite length_map; lia]. }
    destruct (Hkeep _ _ _ Hl1 H1) as (Hl1' & Hfix1 & Hpre1).
    destruct (Hkeep _ _ _ Hl2 H2) as (Hl2' & Hfix2 & Hpre2).
    right. rewrite Hfix1, Hfix2, Hpre1, Hpre2. auto.
Qed.

Lemma forEach_assignOne_agree (drivers : list Driver) (params : SimulationParams)
    (rand1 rand2 : nat → Q) (n : nat) (l : list PopulatedOrder)
    (st1 st2 st1' st2' : LoopState) :
  (∀ i, (i < n)%nat → rand1 i = rand2 i) →
  agree n st1 st2 →
  forEach (assignOne drivers params rand1) l st1 = Ok st1' →
  forEach (assignOne drivers params rand2) l st2 = Ok st2' →
  agree n st1' st2'.
Proof.
  intros Hrand. revert st1 st2. induction l as [|o l IH]; intros st1 st2 Hag; simpl.
  - by intros [= <-] [= <-].
  - intros (s1 & Ho1 & Hl1)%bind_Ok (s2 & Ho2 & Hl2)%bind_Ok.
    eapply IH; [|exact Hl1|exact Hl2]. by eapply assignOne_agree.
Qed.

(** The assigned orders are a subsequence of the queue. *)
Lemma forEach_assignOne_sublist (drivers : list Driver) (params : SimulationParams)
    (rand : nat → Q) (l : list PopulatedOrder) (st st' : LoopState) :
  forEach (assignOne drivers params rand) l st = Ok st' →
  ∃ new, assignments st' = assignments st ++ new ∧
         map orderId new `sublist_of` map (λ o, order_id (p_order o)) l.
Proof.
  revert st. induction l as [|o l IH]; intros st; simpl.
  - intros [= <-]. exists []. by rewrite app_nil_r.
  - intros (s1 & Ho & (new & -> & Hsub)%IH)%bind_Ok.
    apply assignOne_Ok in Ho as [[_ ->]|(d & r & _ & _ & ->)].
    + exists new. split; [done|]. by apply sublist_cons.
    + simpl. eexists (_ :: new). rewrite <- app_assoc. split; [done|].
      simpl. by apply sublist_skip.
Qed.

Lemma Sample_pair (rand : nat → Q) :
  assignDeliveries (db_drivers Sample.db_pair) (find_orders Sample.db_pair)
    Sample.params_two rand = Ok (Sample.asg_pair rand).
Proof.
  unfold Sample.asg_pair.
  destruct (assignDeliveries _ _ _ _) as [asg|e] eqn:E; [done|].
  apply assignDeliveries_Ok_total in E; [done|].
  repeat constructor; by eexists.
Qed.

(** Runs on the same drivers, orders and parameters whose draws differ: with
    a slower first delivery the third order goes to the other driver; with a
    quicker first delivery the fifth order is assigned, which the steady run
    skips. *)
Lemma C8_selection_depends_on_draws :
  map orderId (Sample.asg_pair Sample.steady) = ["o1"; "o2"; "o3"; "o4"] ∧
  map driverId (Sample.asg_pair Sample.steady) = ["d1"; "d3"; "d1"; "d3"] ∧
  map orderId (Sample.asg_pair Sample.bumpy) = ["o1"; "o2"; "o3"; "o4"] ∧
  map driverId (Sample.asg_pair Sample.bumpy) = ["d1"; "d3"; "d3"; "d1"] ∧
  map orderId (Sample.asg_pair Sample.brisk) = ["o1"; "o2"; "o3"; "o4"; "o5"] ∧
  map driverId (Sample.asg_pair Sample.brisk) = ["d1"; "d3"; "d1"; "d3"; "d1"] ∧
  (∀ rand, assignDeliveries (db_drivers Sample.db_pair) (find_orders Sample.db_pair)
             Sample.params_two rand = Ok (Sample.asg_pair rand)).
Proof. repeat (split; [by vm_compute|]). apply Sample_pair. Qed.

(** C8 (amended).  Two runs on the same drivers, orders and parameters go
    through the same queue of orders, and the orders each run assigns are a
    subsequence of that queue.  If the draws of the two runs coincide below
    index [n], the runs produce the same first [n] assignments, and their
    assignments of index [n] (both present or both absent) have the same
    order, driver, route, estimate, order value and fuel cost; in particular
    the first assignment always has. *)
Theorem C8_agreement_up_to_first_differing_draw (drivers : list Driver)
    (orders : list PopulatedOrder) (params : SimulationParams)
    (rand1 rand2 : nat → Q) (asg1 asg2 : list DeliveryAssignment) (n : nat) :
  assignDeliveries drivers orders params rand1 = Ok asg1 →
  assignDeliveries drivers orders params rand2 = Ok asg2 →
  (∀ i, (i < n)%nat → rand1 i = rand2 i) →
  map orderId asg1 `sublist_of` map (λ o, order_id (p_order o)) (sortedOrders orders) ∧
  map orderId asg2 `sublist_of` map (λ o, order_id (p_order o)) (sortedOrders orders) ∧
  take n asg1 = take n asg2 ∧
  fixed_part <$> asg1 !! n = fixed_part <$> asg2 !! n.
Proof.
  intros (st1 & Hloop1 & <-)%assignDeliveries_Ok
         (st2 & Hloop2 & <-)%assignDeliveries_Ok Hrand.
  unfold assignLoop in *.
  destruct (forEach_assignOne_sublist _ _ _ _ _ _ Hloop1) as (new1 & E1 & Hs1).
  destruct (forEach_assignOne_sublist _ _ _ _ _ _ Hloop2) as (new2 & E2 & Hs2).
  simpl in E1, E2. subst new1 new2. split; [done|]. split; [done|].
  assert (agree n (initialState drivers) (initialState drivers)) as H0.
  { left. simpl. split; [done|]. split; [done|lia]. }
  destruct (forEach_assignOne_agree _ _ _ _ _ _ _ _ _ _ Hrand H0 Hloop1 Hloop2)
    as [(<- & _ & _)|(Hl1 & Hl2 & Hfix & Hpre)]; [done|].
  split; [done|].
  rewrite <- !list_lookup_fmap.
  assert (∀ l : list DeliveryAssignment,
            (fixed_part <$> l) !! n = take (S n) (map fixed_part l) !! n) as Hlk.
  { intros l. by rewrite lookup_take_lt by lia. }
  by rewrite !Hlk, Hfix.
Qed.

(** The sample runs differ in their first draw: their first assignments
    still have the same order, driver, route and estimate. *)
Lemma C8_agreement_up_to_first_differing_draw_witness :
  fixed_part <$> Sample.asg_pair Sample.steady !! 0%nat
  = fixed_part <$> Sample.asg_pair Sample.bumpy !! 0%nat.
Proof.
  apply (C8_agreement_up_to_first_differing_draw (db_drivers Sample.db_pair)
           (find_orders Sample.db_pair) Sample.params_two Sample.steady Sample.bumpy
           (Sample.asg_pair Sample.steady) (Sample.asg_pair Sample.bumpy) 0
           (Sample_pair Sample.steady) (Sample_pair Sample.bumpy)).
  intros i Hi. lia.
Defined.

(** * Further properties of the engine *)

(** ** The simulated delivery time *)

Lemma randomFactor_bounds (u : Q) :
  (0 <= u)%Q → (u < 1)%Q →
  (9 # 10 <= 1 + (u - (5 # 10)) * (2 # 10))%Q ∧
  (1 + (u - (5 # 10)) * (2 # 10) < 11 # 10)%Q.
Proof. intros H0 H1. split; lra. Qed.

Lemma round_nonneg (x : Q) : (0 <= x)%Q → (0 <= JS.round x)%Q.
Proof.
  intros Hx. pose proof (round_mono 0 x Hx) as H.
  by change (JS.round 0) with 0%Q in H.
Qed.

(** X1.  With a draw in [[0, 1)] and a nonnegative estimate, the simulated
    delivery time is a nonnegative whole number of minutes that lies between
    the roundings of 90% and of 110% of the estimate, hence within 10% of
    the estimate plus half a minute. *)
Theorem simulated_time_within_ten_percent (estimated random : Q) :
  (0 <= estimated)%Q → (0 <= random)%Q → (random < 1)%Q →
  let actual := simulateActualDeliveryTime estimated random in
  (∃ z : Z, actual = inject_Z z ∧ (0 <= z)%Z) ∧
  (JS.round (estimated * (9 # 10)) <= actual)%Q ∧
  (actual <= JS.round (estimated * (11 # 10)))%Q ∧
  (Qabs (actual - estimated) <= estimated * (1 # 10) + (1 # 2))%Q.
Proof.
  intros He H0 H1 actual.
  destruct (randomFactor_bounds random H0 H1) as [Hlo Hhi].
  unfold actual, simulateActualDeliveryTime. cbv zeta.
  set (f := (1 + (random - (5 # 10)) * (2 # 10))%Q) in *.
  assert (estimated * (9 # 10) <= estimated * f)%Q as Hl by nra.
  assert (estimated * f <= estimated * (11 # 10))%Q as Hh by nra.
  split; [|split; [|split]].
  - unfold JS.round. eexists. split; [reflexivity|].
    assert (0 <= JS.round (estimated * f))%Q as Hr by (apply round_nonneg; nra).
    unfold JS.round in Hr. change 0%Q with (inject_Z 0) in Hr.
    by rewrite <- Zle_Qle in Hr.
  - by apply round_mono.
  - by apply round_mono.
  - pose proof (round_bounds (estimated * f)) as [Hb1 Hb2].
    apply Qabs_Qle_condition. split; lra.
Qed.

Lemma simulated_time_within_ten_percent_witness :
  (JS.round (78 * (9 # 10)) <= simulateActualDeliveryTime 78 (3 # 4))%Q ∧
  (simulateActualDeliveryTime 78 (3 # 4) <= JS.round (78 * (11 # 10)))%Q.
Proof.
  destruct (simulated_time_within_ten_percent 78 (3 # 4)) as (_ & Hlo & Hhi & _);
    [done..|]. by split.
Defined.

(** ** Deliveries whose punctuality no draw can change *)

Lemma factor_bounds (d : Driver) (t : TrafficLevel) :
  (1 <= fatigue_factor d)%Q ∧ (fatigue_factor d <= 13 # 10)%Q ∧
  (1 <= traffic_factor t)%Q ∧ (traffic_factor t <= 15 # 10)%Q.
Proof.
  unfold fatigue_factor. destruct (Qlt_le_dec 56 (pastWeekHours d)), t; simpl;
    repeat split; lra.
Qed.

Lemma estimatedTime_nonneg (d : Driver) (route : Route) :
  (0 <= baseTimeMinutes route)%Q → (0 <= estimatedTime d route)%Q.
Proof.
  intros Hb. rewrite estimatedTime_factors.
  destruct (factor_bounds d (trafficLevel route)) as (Hf & _ & Ht & _).
  apply Qmult_le_0_compat; [apply Qmult_le_0_compat|]; lra.
Qed.

Lemma mkAssignment_late (o : Order) (d : Driver) (route : Route) (u : Q) :
  (0 <= u)%Q → (0 <= baseTimeMinutes route)%Q →
  (baseTimeMinutes route + 10 + (1 # 2) <= estimatedTime d route * (9 # 10))%Q →
  isOnTime (mkAssignment o d route u) = false.
Proof.
  intros Hu Hb Hgap. simpl. apply leb_gt.
  pose proof (estimatedTime_nonneg d route Hb) as He.
  unfold simulateActualDeliveryTime. cbv zeta.
  set (f := (1 + (u - (5 # 10)) * (2 # 10))%Q).
  assert (9 # 10 <= f)%Q as Hf by (unfold f; lra).
  pose proof (round_bounds (estimatedTime d route * f)) as [Hlo _].
  assert (estimatedTime d route * (9 # 10) <= estimatedTime d route * f)%Q by nra.
  lra.
Qed.

Lemma mkAssignment_on_time (o : Order) (d : Driver) (route : Route) (u : Q) :
  (u < 1)%Q → (0 <= baseTimeMinutes route)%Q →
  (estimatedTime d route * (11 # 10) + (1 # 2) <= baseTimeMinutes route + 10)%Q →
  isOnTime (mkAssignment o d route u) = true.
Proof.
  intros Hu Hb Hgap. simpl. apply Qle_bool_iff.
  pose proof (estimatedTime_nonneg d route Hb) as He.
  unfold simulateActualDeliveryTime. cbv zeta.
  set (f := (1 + (u - (5 # 10)) * (2 # 10))%Q).
  assert (f <= 11 # 10)%Q as Hf by (unfold f; lra).
  pose proof (round_bounds (estimatedTime d route * f)) as [_ Hhi].
  assert (estimatedTime d route * f <= estimatedTime d route * (11 # 10))%Q by nra.
  lra.
Qed.

(** X2.  With draws in [[0, 1)], an assignment is late whatever the draw
    when 90% of its estimate exceeds the base time of the route by 10.5
    minutes or more: so is every delivery on a High-traffic route of base
    time 30 or more, and every delivery by a driver with more than 56
    past-week hours on a route of base time 62 or more.  Such an assignment
    carries the penalty of 50 and no bonus. *)
Theorem long_deliveries_are_late (drivers : list Driver) (orders : list PopulatedOrder)
    (params : SimulationParams) (rand : nat → Q) (asg : list DeliveryAssignment)
    (a : DeliveryAssignment) :
  assignDeliveries drivers orders params rand = Ok asg →
  valid_draws rand → a ∈ asg →
  ∃ order route d,
    order ∈ orders ∧ p_route order = Some route ∧ d ∈ drivers ∧
    orderId a = order_id (p_order order) ∧ a_routeId a = route_id route ∧
    driverId a = driver_id d ∧
    ((0 <= baseTimeMinutes route)%Q →
     (baseTimeMinutes route + 10 + (1 # 2) <= estimatedDeliveryTime a * (9 # 10))%Q →
     isOnTime a = false) ∧
    (trafficLevel route = High → (30 <= baseTimeMinutes route)%Q →
     isOnTime a = false) ∧
    ((56 < pastWeekHours d)%Q → (62 <= baseTimeMinutes route)%Q →
     isOnTime a = false) ∧
    (isOnTime a = false → penalty a = 50%Q ∧ (bonus a == 0)%Q).
Proof.
  intros Hrun Hrand Ha.
  destruct (assignment_produced _ _ _ _ _ _ Hrun Ha)
    as (order & route & d & wl & i & Ho & Hr & Hd & ->).
  exists order, route, d. do 2 (split; [done|]). split.
  { apply availableDriver_Some in Hd as (l1 & l2 & w & -> & _).
    apply elem_of_app. right. by left. }
  do 3 (split; [done|]).
  destruct (Hrand i) as [H0 H1].
  destruct (factor_bounds d (trafficLevel route)) as (Hf1 & Hf2 & Ht1 & Ht2).
  pose proof (estimatedTime_factors d route) as Hest.
  split; [|split; [|split]].
  - intros Hb Hgap. by apply mkAssignment_late.
  - intros Ht Hb. apply mkAssignment_late; [done|lra|].
    rewrite Hest, Ht. simpl. nra.
  - intros Hw Hb. apply mkAssignment_late; [done|lra|].
    rewrite Hest. unfold fatigue_factor in *.
    destruct (Qlt_le_dec 56 (pastWeekHours d)); [|lra]. nra.
  - simpl. intros ->. split; [done|]. unfold calculateBonus.
    by rewrite andb_false_r.
Qed.

Lemma long_deliveries_are_late_witness :
  isOnTime Sample.bob_mall = false ∧ penalty Sample.bob_mall = 50%Q.
Proof.
  destruct (long_deliveries_are_late Sample.pool (find_orders Sample.db) Sample.params
              Sample.steady Sample.asg_steady Sample.bob_mall Sample_run)
    as (order & route & d & Ho & Hr & Hd & Hid & Hrid & Hdid & _ & _ & _ & Hp).
  - intros i. split; by vm_compute.
  - apply Sample_bob_mall.
  - split; [done|]. by apply Hp.
Defined.

(** X3.  With draws in [[0, 1)], an assignment is on time whatever the draw
    when 110% of its estimate plus half a minute stays within the base time
    of the route plus 10: so is every delivery on a Low-traffic route of base
    time at most 95 by a driver with at most 56 past-week hours.  Such an
    assignment carries no penalty. *)
Theorem short_deliveries_are_on_time (drivers : list Driver)
    (orders : list PopulatedOrder) (params : SimulationParams) (rand : nat → Q)
    (asg : list DeliveryAssignment) (a : DeliveryAssignment) :
  assignDeliveries drivers orders params rand = Ok asg →
  valid_draws rand → a ∈ asg →
  ∃ order route d,
    order ∈ orders ∧ p_route order = Some route ∧ d ∈ drivers ∧
    orderId a = order_id (p_order order) ∧ a_routeId a = route_id route ∧
    driverId a = driver_id d ∧
    ((0 <= baseTimeMinutes route)%Q →
     (estimatedDeliveryTime a * (11 # 10) + (1 # 2) <= baseTimeMinutes route + 10)%Q →
     isOnTime a = true) ∧
    (trafficLevel route = Low → (pastWeekHours d <= 56)%Q →
     (0 <= baseTimeMinutes route)%Q → (baseTimeMinutes route <= 95)%Q →
     isOnTime a = true) ∧
    (isOnTime a = true → penalty a = 0%Q).
Proof.
  intros Hrun Hrand Ha.
  destruct (assignment_produced _ _ _ _ _ _ Hrun Ha)
    as (order & route & d & wl & i & Ho & Hr & Hd & ->).
  exists order, route, d. do 2 (split; [done|]). split.
  { apply availableDriver_Some in Hd as (l1 & l2 & w & -> & _).
    apply elem_of_app. right. by left. }
  do 3 (split; [done|]).
  destruct (Hrand i) as [H0 H1].
  pose proof (estimatedTime_factors d route) as Hest.
  split; [|split].
  - intros Hb Hgap. by apply mkAssignment_on_time.
  - intros Ht Hw Hb0 Hb. apply mkAssignment_on_time; [done..|].
    rewrite Hest, Ht. unfold fatigue_factor.
    destruct (Qlt_le_dec 56 (pastWeekHours d)); [lra|]. simpl. lra.
  - simpl. by intros ->.
Qed.

Lemma short_deliveries_are_on_time_witness :
  isOnTime Sample.alice_loop = true ∧ penalty Sample.alice_loop = 0%Q.
Proof.
  destruct (short_deliveries_are_on_time Sample.pool (find_orders Sample.db)
              Sample.params Sample.steady Sample.asg_steady Sample.alice_loop Sample_run)
    as (order & route & d & Ho & Hr & Hd & Hid & Hrid & Hdid & _ & _ & Hp).
  - intros i. split; by vm_compute.
  - apply Sample_alice_loop.
  - split; [done|]. by apply Hp.
Defined.

(** ** The workload object *)

Lemma initialWorkload_snoc (drivers : list Driver) (d : Driver) :
  initialWorkload (drivers ++ [d])
  = <[driver_id d := currentShiftHours d]> (initialWorkload drivers).
Proof. unfold initialWorkload. by rewrite foldl_app. Qed.

(** A key of the initial workload is the identifier of a driver and holds the
    shift hours of a driver with that identifier. *)
Lemma initialWorkload_Some (drivers : list Driver) (k : string) (w : Q) :
  initialWorkload drivers !! k = Some w →
  ∃ d, d ∈ drivers ∧ driver_id d = k ∧ currentShiftHours d = w.
Proof.
  induction drivers as [|d drivers IH] using rev_ind; [done|].
  rewrite initialWorkload_snoc.
  destruct (decide (driver_id d = k)) as [<-|Hne].
  - rewrite lookup_insert_eq. intros [= <-]. exists d. split; [|done].
    apply elem_of_app. right. by left.
  - rewrite lookup_insert_ne by done. intros (d' & Hd' & ? & ?)%IH.
    exists d'. split; [|done]. apply elem_of_app. by left.
Qed.

Lemma initialWorkload_is_Some (drivers : list Driver) (d : Driver) :
  d ∈ drivers → is_Some (initialWorkload drivers !! driver_id d).
Proof.
  induction drivers as [|x drivers IH] using rev_ind; [by intros ?%elem_of_nil|].
  rewrite initialWorkload_snoc. intros [Hd|Hd%list_elem_of_singleton]%elem_of_app.
  - destruct (decide (driver_id x = driver_id d)) as [->|Hne].
    + rewrite lookup_insert_eq. eauto.
    + rewrite lookup_insert_ne by done. auto.
  - subst x. rewrite lookup_insert_eq. eauto.
Qed.

Lemma initialWorkload_NoDup (drivers : list Driver) (d : Driver) :
  NoDup (map driver_id drivers) → d ∈ drivers →
  initialWorkload drivers !! driver_id d = Some (currentShiftHours d).
Proof.
  induction drivers as [|x drivers IH] using rev_ind; [by intros _ ?%elem_of_nil|].
  rewrite map_app. simpl. intros [Hnd [Hx _]]%NoDup_app.
  rewrite initialWorkload_snoc. intros [Hd|Hd%list_elem_of_singleton]%elem_of_app.
  - rewrite lookup_insert_ne; [by apply IH|].
    intros E. apply (Hx (driver_id d)); [|rewrite E; by left].
    apply list_elem_of_fmap. by exists d.
  - subst x. by rewrite lookup_insert_eq.
Qed.

Lemma assignOne_workload (drivers : list Driver) (params : SimulationParams)
    (rand : nat → Q) (st st' : LoopState) (order : PopulatedOrder) :
  assignOne drivers params rand st order = Ok st' →
  st' = st ∨
  ∃ a w, assignments st' = assignments st ++ [a] ∧
    driverWorkload st !! driverId a = Some w ∧
    (w < maxHoursPerDriver params)%Q ∧
    driverWorkload st' !! driverId a = Some (w + actualDeliveryTime a / 60)%Q ∧
    ∀ k, k ≠ driverId a → driverWorkload st' !! k = driverWorkload st !! k.
Proof.
  intros [[_ ->]|(d & route & Hd & Hr & ->)]%assignOne_Ok; [by left|]. right.
  apply availableDriver_Some in Hd as (l1 & l2 & w & _ & Hw & Hlt & _).
  eexists _, w. simpl. split; [done|]. split; [done|]. split; [done|]. split.
  - by rewrite lookup_alter_eq, Hw.
  - intros k Hk. by rewrite lookup_alter_ne.
Qed.

(** X4.  At the end of the loop the workload of a driver is either the shift
    hours it started with, or below the cap plus the duration of one of the
    assignments of that driver: a driver overshoots the cap by less than one
    delivery. *)
Theorem workload_overshoot_bounded (drivers : list Driver)
    (orders : list PopulatedOrder) (params : SimulationParams) (rand : nat → Q)
    (final : LoopState) (d : Driver) :
  NoDup (map driver_id drivers) →
  assignLoop drivers orders params rand = Ok final →
  d ∈ drivers →
  ∃ w, driverWorkload final !! driver_id d = Some w ∧
    (w = currentShiftHours d ∨
     ∃ a, a ∈ assignments final ∧ driverId a = driver_id d ∧
       (w < maxHoursPerDriver params + actualDeliveryTime a / 60)%Q).
Proof.
  intros Hnd Hloop Hd. unfold assignLoop in Hloop.
  pose (I := λ st : LoopState,
    ∃ w, driverWorkload st !! driver_id d = Some w ∧
      (w = currentShiftHours d ∨
       ∃ a, a ∈ assignments st ∧ driverId a = driver_id d ∧
         (w < maxHoursPerDriver params + actualDeliveryTime a / 60)%Q)).
  apply (forEach_invariant _ I _ _ _) in Hloop; [done| |].
  - intros s o s' _ Hs Hstep. unfold I in *. destruct Hs as (w & Hw & Hcase).
    apply assignOne_workload in Hstep
      as [->|(a & w0 & Ea & Hw0 & Hlt & Hnew & Hother)]; [by exists w|].
    destruct (decide (driver_id d = driverId a)) as [E|Hne].
    + rewrite E. eexists. split; [exact Hnew|]. right. exists a.
      rewrite Ea. split; [apply elem_of_app; right; by left|]. split; [done|]. lra.
    + exists w. rewrite Hother by done. split; [done|].
      destruct Hcase as [->|(a' & Ha' & Hid & Hb)]; [by left|]. right.
      exists a'. rewrite Ea. split; [apply elem_of_app; by left|done].
  - exists (currentShiftHours d). split; [|by left]. simpl.
    by apply initialWorkload_NoDup.
Qed.

Lemma workload_overshoot_bounded_witness :
  ∃ w, driverWorkload Sample.final_tight !! driver_id Sample.bob = Some w ∧
    (w = currentShiftHours Sample.bob ∨
     ∃ a, a ∈ assignments Sample.final_tight ∧ driverId a = driver_id Sample.bob ∧
       (w < maxHoursPerDriver Sample.params_tight + actualDeliveryTime a / 60)%Q).
Proof.
  apply (workload_overshoot_bounded Sample.pool (find_orders Sample.db)
           Sample.params_tight Sample.steady).
  - apply (bool_decide_unpack _). by vm_compute.
  - by vm_compute.
  - right. left.
Defined.

Lemma hours_of_snoc (k : string) (asg : list DeliveryAssignment) (a : DeliveryAssignment) :
  (hours_of k (asg ++ [a]) ==
     hours_of k asg + if String.eqb (driverId a) k then actualDeliveryTime a / 60 else 0)%Q.
Proof.
  unfold hours_of. rewrite List.filter_app. simpl.
  destruct (String.eqb (driverId a) k); rewrite ?app_nil_r.
  - rewrite map_app. simpl. induction (map _ _) as [|x l IH]; simpl; [lra|].
    rewrite IH. lra.
  - lra.
Qed.

(** X5.  At the end of the loop the workload of every driver is the shift
    hours it started with plus the durations, in hours, of the assignments
    the loop gave to that driver. *)
Theorem workload_accounts_for_assignments (drivers : list Driver)
    (orders : list PopulatedOrder) (params : SimulationParams) (rand : nat → Q)
    (final : LoopState) (d : Driver) :
  NoDup (map driver_id drivers) →
  assignLoop drivers orders params rand = Ok final →
  d ∈ drivers →
  ∃ w, driverWorkload final !! driver_id d = Some w ∧
    (w == currentShiftHours d + hours_of (driver_id d) (assignments final))%Q.
Proof.
  intros Hnd Hloop Hd. unfold assignLoop in Hloop.
  pose (I := λ st : LoopState,
    ∃ w, driverWorkload st !! driver_id d = Some w ∧
      (w == currentShiftHours d + hours_of (driver_id d) (assignments st))%Q).
  apply (forEach_invariant _ I _ _ _) in Hloop; [done| |].
  - intros s o s' _ Hs Hstep. unfold I in *. destruct Hs as (w & Hw & Hsum).
    apply assignOne_workload in Hstep
      as [->|(a & w0 & Ea & Hw0 & Hlt & Hnew & Hother)]; [by exists w|].
    rewrite Ea. destruct (decide (driver_id d = driverId a)) as [E|Hne].
    + rewrite E in Hw, Hsum |- *. eexists. split; [exact Hnew|].
      rewrite hours_of_snoc, String.eqb_refl.
      assert (w0 = w) as -> by congruence. lra.
    + exists w. rewrite Hother by done. split; [done|].
      rewrite hours_of_snoc.
      destruct (String.eqb_spec (driverId a) (driver_id d)); [congruence|]. lra.
  - exists (currentShiftHours d). split.
    + simpl. by apply initialWorkload_NoDup.
    + unfold hours_of. simpl. lra.
Qed.

Lemma workload_accounts_for_assignments_witness :
  ∃ w, driverWorkload Sample.final_tight !! driver_id Sample.bob = Some w ∧
    (w == currentShiftHours Sample.bob
          + hours_of (driver_id Sample.bob) (assignments Sample.final_tight))%Q.
Proof.
  apply (workload_accounts_for_assignments Sample.pool (find_orders Sample.db)
           Sample.params_tight Sample.steady).
  - apply (bool_decide_unpack _). by vm_compute.
  - by vm_compute.
  - right. left.
Defined.

(** ** Runs that assign nothing *)

Lemma forEach_assignOne_none (drivers : list Driver) (params : SimulationParams)
    (rand : nat → Q) (l : list PopulatedOrder) (st : LoopState) :
  none_under_cap drivers (driverWorkload st) (maxHoursPerDriver params) →
  forEach (assignOne drivers params rand) l st = Ok st.
Proof.
  intros Hnone%availableDriver_None. induction l as [|o l IH]; [done|].
  assert (assignOne drivers params rand st o = Ok st) as Ho
    by (unfold assignOne; by rewrite Hnone).
  cbn [forEach]. rewrite Ho. exact IH.
Qed.

Lemma calculateResults_nil :
  let res := calculateResults [] in
  (totalProfit res == 0)%Q ∧ (efficiencyScore res == 0)%Q ∧
  onTimeDeliveries res = 0%nat ∧ lateDeliveries res = 0%nat ∧
  (baseCost (fuelCostBreakdown res) == 0)%Q ∧
  (trafficSurcharge (fuelCostBreakdown res) == 0)%Q ∧
  (total (fuelCostBreakdown res) == 0)%Q.
Proof. by vm_compute. Qed.

(** X6.  When the store has drivers, routes and eligible orders but every
    driver of the pool already has shift hours at or above the cap, the run
    does not fail: it assigns nothing and returns a result whose figures are
    all zero, even when route references of the orders are dangling. *)
Theorem run_with_all_drivers_at_cap (db : Database) (params : SimulationParams)
    (rand : nat → Q) :
  db_drivers db ≠ [] → db_routes db ≠ [] →
  List.filter (λ o, eligible_status (status o)) (db_orders db) ≠ [] →
  (∀ d, d ∈ limit (numberOfDrivers params) (db_drivers db) →
        (maxHoursPerDriver params <= currentShiftHours d)%Q) →
  assignDeliveries (limit (numberOfDrivers params) (db_drivers db))
    (find_orders db) params rand = Ok [] ∧
  ∃ res, runSimulation db params rand = Ok res ∧
    (totalProfit res == 0)%Q ∧ (efficiencyScore res == 0)%Q ∧
    onTimeDeliveries res = 0%nat ∧ lateDeliveries res = 0%nat ∧
    (baseCost (fuelCostBreakdown res) == 0)%Q ∧
    (trafficSurcharge (fuelCostBreakdown res) == 0)%Q ∧
    (total (fuelCostBreakdown res) == 0)%Q.
Proof.
  intros Hd Hr Ho Hcap.
  set (pool := limit (numberOfDrivers params) (db_drivers db)) in *.
  assert (assignLoop pool (find_orders db) params rand = Ok (initialState pool))
    as Hloop.
  { apply forEach_assignOne_none. simpl. intros d w _ Hw Hlt.
    apply initialWorkload_Some in Hw as (d' & Hd' & _ & <-).
    specialize (Hcap d' Hd'). lra. }
  assert (assignDeliveries pool (find_orders db) params rand = Ok []) as Hasg.
  { unfold assignDeliveries. by rewrite Hloop. }
  split; [done|]. exists (calculateResults []). split; [|apply calculateResults_nil].
  apply runSimulation_Ok. fold pool.
  split; [unfold pool; by rewrite limit_nil|]. split; [done|].
  split; [by rewrite find_orders_nil|]. by exists [].
Qed.

Lemma run_with_all_drivers_at_cap_witness :
  assignDeliveries (limit (numberOfDrivers Sample.params) (db_drivers Cases.db_full_day))
    (find_orders Cases.db_full_day) Sample.params Sample.steady = Ok [] ∧
  p_route <$> find_orders Cases.db_full_day = [None].
Proof.
  split; [|done].
  apply (run_with_all_drivers_at_cap Cases.db_full_day Sample.params Sample.steady);
    [done..|].
  intros d [->|[->|[]%elem_of_nil]%elem_of_cons]%elem_of_cons; by vm_compute.
Defined.

(** ** What an assignment refers to *)

Lemma limit_take {A} (n : nat) (l : list A) (x : A) :
  x ∈ limit n l → x ∈ l ∧ (n ≠ 0%nat → ∃ i, (i < n)%nat ∧ l !! i = Some x).
Proof.
  destruct n as [|n]; simpl.
  - intros Hx. split; [done|]. by intros [].
  - intros Hx. apply list_elem_of_lookup in Hx as [i Hi].
    apply lookup_take_Some in Hi as [Hi Hlt].
    split; [by eapply list_elem_of_lookup_2|]. intros _. eauto.
Qed.

(** X7.  Every assignment of a run refers to data of the store: its driver
    is one of the first [numberOfDrivers] drivers, its order is a stored
    order with status Pending or In Progress whose value it copies, and its
    route identifier is the route reference of that order and the identifier
    of a stored route. *)
Theorem assignments_refer_to_the_store (db : Database) (params : SimulationParams)
    (rand : nat → Q) (asg : list DeliveryAssignment) (a : DeliveryAssignment) :
  assignDeliveries (limit (numberOfDrivers params) (db_drivers db))
    (find_orders db) params rand = Ok asg →
  a ∈ asg →
  ∃ d o route,
    d ∈ db_drivers db ∧ driverId a = driver_id d ∧
    (numberOfDrivers params ≠ 0%nat →
       ∃ i, (i < numberOfDrivers params)%nat ∧ db_drivers db !! i = Some d) ∧
    o ∈ db_orders db ∧ eligible_status (status o) = true ∧
    orderId a = order_id o ∧ orderValue a = valueRs o ∧
    route ∈ db_routes db ∧ route_id route = routeId o ∧ a_routeId a = routeId o.
Proof.
  intros Hrun Ha.
  destruct (assignment_produced _ _ _ _ _ _ Hrun Ha)
    as (order & route & d & wl & i & Ho & Hr & Hd & ->).
  apply availableDriver_Some in Hd as (l1 & l2 & w & Hpool & _).
  assert (d ∈ limit (numberOfDrivers params) (db_drivers db)) as Hin.
  { rewrite Hpool. apply elem_of_app. right. by left. }
  apply limit_take in Hin as [Hin Hpos].
  unfold find_orders in Ho. apply list_elem_of_fmap in Ho as (o & -> & Ho).
  apply list_elem_of_In, filter_In in Ho as [Ho%list_elem_of_In Hst].
  simpl in Hr. pose proof Hr as [Hroute Heq]%find_some.
  apply String.eqb_eq in Heq. apply list_elem_of_In in Hroute.
  exists d, o, route. simpl. by rewrite Heq.
Qed.

Lemma assignments_refer_to_the_store_witness :
  ∃ d o route,
    d ∈ db_drivers Sample.db ∧ driverId Sample.bob_mall = driver_id d ∧
    (numberOfDrivers Sample.params ≠ 0%nat →
       ∃ i, (i < numberOfDrivers Sample.params)%nat ∧
            db_drivers Sample.db !! i = Some d) ∧
    o ∈ db_orders Sample.db ∧ eligible_status (status o) = true ∧
    orderId Sample.bob_mall = order_id o ∧ orderValue Sample.bob_mall = valueRs o ∧
    route ∈ db_routes Sample.db ∧ route_id route = routeId o ∧
    a_routeId Sample.bob_mall = routeId o.
Proof.
  exact (assignments_refer_to_the_store Sample.db Sample.params Sample.steady
           Sample.asg_steady Sample.bob_mall Sample_run Sample_bob_mall).
Defined.

(** ** The list of assignments *)

Lemma map_sublist {A B} (f : A → B) (l1 l2 : list A) :
  l1 `sublist_of` l2 → map f l1 `sublist_of` map f l2.
Proof. induction 1; simpl; by constructor. Qed.

Lemma filter_bool_sublist {A} (p : A → bool) (l : list A) :
  List.filter p l `sublist_of` l.
Proof.
  induction l as [|x l IH]; simpl; [constructor|].
  destruct (p x); by constructor.
Qed.

Lemma StronglySorted_sublist {A} (R : A → A → Prop) (l1 l2 : list A) :
  l1 `sublist_of` l2 → StronglySorted R l2 → StronglySorted R l1.
Proof.
  induction 1 as [|x l1 l2 Hsub IH|x l1 l2 Hsub IH]; intros Hs; [done| |].
  - apply StronglySorted_inv in Hs as [Hs Hx]. constructor; [auto|].
    rewrite Forall_forall in Hx |- *. intros y Hy. apply Hx.
    by apply (sublist_subseteq _ _ Hsub).
  - apply StronglySorted_inv in Hs as [Hs _]. auto.
Qed.

Lemma StronglySorted_map_impl {A B} (R : A → A → Prop) (S : B → B → Prop)
    (f : A → B) (l : list A) :
  (∀ x y, R x y → S (f x) (f y)) →
  StronglySorted R l → StronglySorted S (map f l).
Proof.
  intros HRS Hs. induction Hs as [|x l Hl IH Hx]; simpl; constructor; [done|].
  apply Forall_forall. intros y (x' & -> & Hx')%list_elem_of_fmap.
  apply HRS. rewrite Forall_forall in Hx. by apply Hx.
Qed.

(** The assignments pushed by the loop follow the queue: their orders and
    order values are a subsequence of those of the queue. *)
Lemma forEach_assignOne_follows_queue (drivers : list Driver)
    (params : SimulationParams) (rand : nat → Q) (l : list PopulatedOrder)
    (st st' : LoopState) :
  forEach (assignOne drivers params rand) l st = Ok st' →
  ∃ new, assignments st' = assignments st ++ new ∧
    map (λ a, (orderId a, orderValue a)) new
      `sublist_of` map (λ o, (order_id (p_order o), valueRs (p_order o))) l.
Proof.
  revert st. induction l as [|o l IH]; intros st; simpl.
  - intros [= <-]. exists []. by rewrite app_nil_r.
  - intros (s1 & Ho & (new & -> & Hsub)%IH)%bind_Ok.
    apply assignOne_Ok in Ho as [[_ ->]|(d & r & _ & _ & ->)].
    + exists new. split; [done|]. by apply sublist_cons.
    + simpl. eexists (_ :: new). rewrite <- app_assoc. split; [done|].
      simpl. by apply sublist_skip.
Qed.

(** X8.  The assignments of a run come in descending order of order value,
    and when the stored orders have distinct identifiers no order is
    assigned twice. *)
Theorem assignments_follow_the_queue (db : Database) (params : SimulationParams)
    (rand : nat → Q) (asg : list DeliveryAssignment) :
  assignDeliveries (limit (numberOfDrivers params) (db_drivers db))
    (find_orders db) params rand = Ok asg →
  NoDup (map order_id (db_orders db)) →
  NoDup (map orderId asg) ∧
  StronglySorted (λ x y, (y <= x)%Q) (map orderValue asg).
Proof.
  intros (st & Hloop & <-)%assignDeliveries_Ok Hnd. unfold assignLoop in Hloop.
  apply forEach_assignOne_follows_queue in Hloop as (new & E & Hsub).
  simpl in E. subst new. split.
  - apply (map_sublist fst) in Hsub. rewrite !map_map in Hsub. simpl in Hsub.
    eapply sublist_NoDup; [|exact Hsub].
    assert (map (λ x, order_id (p_order x)) (sortedOrders (find_orders db))
            ≡ₚ map order_id
                 (List.filter (λ o, eligible_status (status o)) (db_orders db))) as ->.
    { rewrite (Permutation_map _ (sortedOrders_perm (find_orders db))).
      unfold find_orders. by rewrite map_map. }
    eapply sublist_NoDup; [exact Hnd|]. apply map_sublist, filter_bool_sublist.
  - apply (map_sublist snd) in Hsub. rewrite !map_map in Hsub. simpl in Hsub.
    eapply StronglySorted_sublist; [exact Hsub|].
    eapply StronglySorted_map_impl;
      [|exact (sort_sorted _ _ by_value_desc_key (find_orders db))].
    simpl. intros x y Hxy. lra.
Qed.

Lemma assignments_follow_the_queue_witness :
  NoDup (map orderId Sample.asg_steady) ∧
  StronglySorted (λ x y, (y <= x)%Q) (map orderValue Sample.asg_steady).
Proof.
  apply (assignments_follow_the_queue Sample.db Sample.params Sample.steady).
  - apply Sample_run.
  - apply (bool_decide_unpack _). by vm_compute.
Defined.

(** * Properties of the other handlers *)

Lemma by_timestamp_desc_key (a b : SimulationRecord) :
  (by_timestamp_desc a b == - Q_of_nat (rec_timestamp a) - - Q_of_nat (rec_timestamp b))%Q.
Proof. unfold by_timestamp_desc. lra. Qed.

Lemma newest_first_perm (l : list SimulationRecord) : newest_first l ≡ₚ l.
Proof. apply sort_perm. Qed.

Lemma newest_first_sorted (l : list SimulationRecord) :
  StronglySorted (λ a b, (rec_timestamp b <= rec_timestamp a)%nat) (newest_first l).
Proof.
  pose proof (sort_sorted _ _ by_timestamp_desc_key l) as Hs.
  fold (newest_first l) in Hs.
  induction Hs as [|a k Hk IH Ha]; constructor; [done|].
  eapply Forall_impl; [exact Ha|]. simpl. intros b Hb.
  apply Q_of_nat_le. lra.
Qed.

Lemma head_newest_first (l : list SimulationRecord) (m : SimulationRecord) :
  head (newest_first l) = Some m →
  ∃ l1 l2, l = l1 ++ m :: l2 ∧
    Forall (λ r, (rec_timestamp r < rec_timestamp m)%nat) l1 ∧
    Forall (λ r, (rec_timestamp r <= rec_timestamp m)%nat) l2.
Proof.
  intros (l1 & l2 & -> & H1 & H2)%(head_sort_first_min _ _ by_timestamp_desc_key).
  exists l1, l2. split; [done|]. split.
  - eapply Forall_impl; [exact H1|]. simpl. intros r Hr. apply Q_of_nat_lt. lra.
  - eapply Forall_impl; [exact H2|]. simpl. intros r Hr. apply Q_of_nat_le. lra.
Qed.

(** X9.  [GET /kpis] answers with the all-zero figures when no record is
    stored, and otherwise with the figures of a stored record that no stored
    record is newer than.  After a [POST /run] that stored a
    record at a time later than every earlier record, [GET /kpis] answers
    with the figures of that run. *)
Theorem kpis_of_the_latest_run (db : Database) :
  (db_results db = [] → get_kpis db = defaultKPIs) ∧
  (db_results db ≠ [] →
     ∃ r, r ∈ db_results db ∧ get_kpis db = rec_result r ∧
       ∀ r', r' ∈ db_results db → (rec_timestamp r' <= rec_timestamp r)%nat) ∧
  (∀ params rand now db' r,
     post_run db params rand now = (db', Json r) →
     (∀ r', r' ∈ db_results db → (rec_timestamp r' < now)%nat) →
     runSimulation db params rand = Ok (get_kpis db')).
Proof.
  split; [|split].
  - unfold get_kpis. by intros ->.
  - intros Hne. unfold get_kpis.
    destruct (head (newest_first (db_results db))) as [m|] eqn:Hm.
    + apply head_newest_first in Hm as (l1 & l2 & E & H1 & H2).
      exists m. rewrite E. split; [apply elem_of_app; right; by left|].
      split; [done|]. rewrite Forall_forall in H1, H2.
      intros r' [Hr'|[->|Hr']%elem_of_cons]%elem_of_app.
      * specialize (H1 _ Hr'). lia.
      * done.
      * by apply H2.
    + by apply head_sort_nil in Hm.
  - intros params rand now db' r Hpost Hnow. unfold post_run in Hpost.
    destruct (runSimulation db params rand) as [res|e] eqn:Hrun; [|done].
    destruct (validators_pass _); [|done].
    injection Hpost as <- <-. f_equal. unfold get_kpis. simpl.
    set (new := {| rec_result := res; rec_params := params; rec_timestamp := now |}).
    destruct (head (newest_first (db_results db ++ [new]))) as [m|] eqn:Hm.
    + apply head_newest_first in Hm as (l1 & l2 & E & H1 & H2).
      rewrite Forall_forall in H1, H2.
      assert (m ∈ db_results db ++ [new]) as Hin
        by (rewrite E; apply elem_of_app; right; by left).
      apply elem_of_app in Hin as [Hin|Hin%list_elem_of_singleton]; [|by subst m].
      exfalso. specialize (Hnow _ Hin).
      assert (new ∈ l1 ++ m :: l2) as Hnew
        by (rewrite <- E; apply elem_of_app; right; by left).
      apply elem_of_app in Hnew as [Hnew|[Hnew|Hnew]%elem_of_cons].
      * specialize (H1 _ Hnew). simpl in H1. lia.
      * rewrite <- Hnew in Hnow. simpl in Hnow. lia.
      * specialize (H2 _ Hnew). simpl in H2. lia.
    + apply head_sort_nil in Hm. by destruct (db_results db).
Qed.

Lemma kpis_of_the_latest_run_witness :
  runSimulation Sample.db Sample.params Sample.steady
  = Ok (get_kpis (post_run Sample.db Sample.params Sample.steady 1000).1).
Proof.
  destruct (kpis_of_the_latest_run Sample.db) as (_ & _ & H).
  eapply (H Sample.params Sample.steady 1000%nat).
  - by vm_compute.
  - intros r' Hr'. by apply elem_of_nil in Hr'.
Defined.

(** X10.  [GET /history] lists stored records newest first.  Without a
    limit it lists every stored record once; by default it lists the 50
    newest; a page of [limit > 0] records after [offset] holds
    [min limit (n - offset)] of the [n] stored records, and a page followed
    by the next page is the page of twice the limit. *)
Theorem history_pages (db : Database) :
  let all := get_history db (Some 0%nat) None in
  all ≡ₚ db_results db ∧
  StronglySorted (λ a b, (rec_timestamp b <= rec_timestamp a)%nat) all ∧
  get_history db None None = take 50 all ∧
  ∀ lim offset, (0 < lim)%nat →
    let page := get_history db (Some lim) (Some offset) in
    page = take lim (drop offset all) ∧
    length page = (lim `min` (length (db_results db) - offset))%nat ∧
    page `sublist_of` all ∧
    StronglySorted (λ a b, (rec_timestamp b <= rec_timestamp a)%nat) page ∧
    page ++ get_history db (Some lim) (Some (offset + lim)%nat)
    = get_history db (Some (lim + lim)%nat) (Some offset).
Proof.
  intros all. unfold all, get_history. simpl. rewrite drop_0.
  set (l := newest_first (db_results db)).
  split; [apply newest_first_perm|]. split; [apply newest_first_sorted|].
  split; [done|]. intros lim offset Hlim.
  assert (∀ n, (0 < n)%nat → ∀ k : list SimulationRecord, limit n k = take n k) as Hlimit
    by (intros [|n] ? k; [lia|done]).
  rewrite !Hlimit by lia.
  assert (take lim (drop offset l) `sublist_of` l) as Hsub.
  { etrans; [apply sublist_take|apply sublist_drop]. }
  split; [done|]. split.
  { rewrite length_take, length_drop. unfold l.
    by rewrite (Permutation_length (newest_first_perm (db_results db))). }
  split; [done|]. split.
  { eapply StronglySorted_sublist; [exact Hsub|apply newest_first_sorted]. }
  by rewrite <- drop_drop, take_take_drop.
Qed.

Lemma history_pages_witness :
  length (get_history (post_run Sample.db Sample.params Sample.steady 7).1
            (Some 3%nat) (Some 0%nat)) = 1%nat.
Proof.
  destruct (history_pages (post_run Sample.db Sample.params Sample.steady 7).1)
    as (_ & _ & _ & H).
  destruct (H 3%nat 0%nat) as (_ & Hlen & _); [lia|].
  rewrite Hlen. by vm_compute.
Defined.

(** ** [GET /analytics] *)

Lemma max_of_spec (a b : Q) : (a <= max_of a b ∧ b <= max_of a b)%Q.
Proof.
  unfold max_of. destruct (Qle_bool a b) eqn:E.
  - apply Qle_bool_iff in E. split; lra.
  - apply leb_gt in E. split; lra.
Qed.

Lemma min_of_spec (a b : Q) : (min_of a b <= a ∧ min_of a b <= b)%Q.
Proof.
  unfold min_of. destruct (Qle_bool a b) eqn:E.
  - apply Qle_bool_iff in E. split; lra.
  - apply leb_gt in E. split; lra.
Qed.

Lemma foldl_max_of (x : Q) (l : list Q) :
  (x <= foldl max_of x l)%Q ∧ Forall (λ y, (y <= foldl max_of x l)%Q) l.
Proof.
  revert x. induction l as [|y l IH]; intros x; simpl; [split; [lra|constructor]|].
  destruct (IH (max_of x y)) as [H1 H2]. destruct (max_of_spec x y).
  split; [lra|]. constructor; [lra|done].
Qed.

Lemma foldl_min_of (x : Q) (l : list Q) :
  (foldl min_of x l <= x)%Q ∧ Forall (λ y, (foldl min_of x l <= y)%Q) l.
Proof.
  revert x. induction l as [|y l IH]; intros x; simpl; [split; [lra|constructor]|].
  destruct (IH (min_of x y)) as [H1 H2]. destruct (min_of_spec x y).
  split; [lra|]. constructor; [lra|done].
Qed.

Lemma sumQ_bounds (lo hi : Q) (l : list Q) :
  Forall (λ y, (lo <= y ∧ y <= hi)%Q) l →
  (lo * Q_of_nat (length l) <= sumQ l ∧ sumQ l <= hi * Q_of_nat (length l))%Q.
Proof.
  induction 1 as [|y l [Hy1 Hy2] _ [IH1 IH2]]; simpl.
  - change (Q_of_nat 0) with 0%Q. split; lra.
  - assert (Q_of_nat (S (length l)) == Q_of_nat (length l) + 1)%Q as ->.
    { unfold Q_of_nat. rewrite Nat2Z.inj_succ, <- Z.add_1_r, inject_Z_plus.
      reflexivity. }
    split; lra.
Qed.

Lemma mean_bounds (lo hi : Q) (l : list Q) :
  l ≠ [] → Forall (λ y, (lo <= y ∧ y <= hi)%Q) l →
  (lo <= sumQ l / Q_of_nat (length l) ∧ sumQ l / Q_of_nat (length l) <= hi)%Q.
Proof.
  intros Hne [H1 H2]%sumQ_bounds.
  assert (0 < Q_of_nat (length l))%Q as Hpos.
  { apply (Q_of_nat_lt 0). destruct l; [done|simpl; lia]. }
  split; [apply Qle_shift_div_l | apply Qle_shift_div_r]; done.
Qed.

Lemma filter_weaken {A} (f : A → nat) (p q : A → bool) (l : list A) :
  (∀ x, p x = true → q x = true) →
  (length (List.filter p l) <= length (List.filter q l))%nat ∧
  (sum_list (map f (List.filter p l)) <= sum_list (map f (List.filter q l)))%nat.
Proof.
  intros Hpq. induction l as [|x l [IH1 IH2]]; simpl; [done|].
  destruct (p x) eqn:Hp.
  - rewrite (Hpq _ Hp). simpl. lia.
  - destruct (q x); simpl; lia.
Qed.

Lemma get_analytics_counts (db : Database) (timeframe : option string) (now : nat) :
  let matched :=
    List.filter (date_filter (default "month"%string timeframe) now) (db_results db) in
  let a := get_analytics db timeframe now in
  totalSimulations a = length matched ∧
  totalDeliveries a
    = sum_list (map (λ x, (onTimeDeliveries (rec_result x)
                           + lateDeliveries (rec_result x))%nat) matched) ∧
  totalOnTime a = sum_list (map (λ x, onTimeDeliveries (rec_result x)) matched) ∧
  totalLate a = sum_list (map (λ x, lateDeliveries (rec_result x)) matched).
Proof.
  intros matched a. unfold a, get_analytics. fold matched.
  by destruct matched.
Qed.

Lemma date_filter_nested (now : nat) (r : SimulationRecord) :
  (date_filter "week" now r = true → date_filter "month" now r = true) ∧
  (date_filter "month" now r = true → date_filter "year" now r = true).
Proof.
  unfold date_filter. simpl. rewrite !Z.leb_le. split; lia.
Qed.

(** X11.  The answer of [GET /analytics] is consistent: the deliveries are
    the on-time plus the late deliveries, the least profit is at most the
    average profit, which is at most the greatest, and the average
    efficiency lies between 0 and 100 when every stored score does.  It
    counts the records of the window, all zero when there is none; the
    month window is the default, the week window counts at most what the
    month window counts, the month window at most what the year window
    counts, and any other timeframe counts every stored record. *)
Theorem analytics_consistent (db : Database) (timeframe : option string) (now : nat) :
  let a := get_analytics db timeframe now in
  totalDeliveries a = (totalOnTime a + totalLate a)%nat ∧
  (minProfit a <= avgProfit a)%Q ∧ (avgProfit a <= maxProfit a)%Q ∧
  (Forall (λ r, (0 <= efficiencyScore (rec_result r))%Q ∧
                (efficiencyScore (rec_result r) <= 100)%Q) (db_results db) →
   (0 <= avgEfficiency a)%Q ∧ (avgEfficiency a <= 100)%Q) ∧
  (totalSimulations a = 0%nat → a = zeroAnalytics) ∧
  get_analytics db None now = get_analytics db (Some "month"%string) now ∧
  (totalSimulations (get_analytics db (Some "week"%string) now)
     <= totalSimulations (get_analytics db (Some "month"%string) now))%nat ∧
  (totalSimulations (get_analytics db (Some "month"%string) now)
     <= totalSimulations (get_analytics db (Some "year"%string) now))%nat ∧
  (totalDeliveries (get_analytics db (Some "week"%string) now)
     <= totalDeliveries (get_analytics db (Some "month"%string) now))%nat ∧
  (totalDeliveries (get_analytics db (Some "month"%string) now)
     <= totalDeliveries (get_analytics db (Some "year"%string) now))%nat ∧
  (∀ tf, time_window tf = None →
     totalSimulations (get_analytics db (Some tf) now) = length (db_results db)).
Proof.
  intros a.
  split.
  { unfold a. destruct (get_analytics_counts db timeframe now) as (_ & -> & -> & ->).
    induction (List.filter _ _) as [|x l IH]; simpl; lia. }
  assert ((minProfit a <= avgProfit a)%Q ∧ (avgProfit a <= maxProfit a)%Q ∧
          (Forall (λ r, (0 <= efficiencyScore (rec_result r))%Q ∧
                        (efficiencyScore (rec_result r) <= 100)%Q) (db_results db) →
           (0 <= avgEfficiency a)%Q ∧ (avgEfficiency a <= 100)%Q) ∧
          (totalSimulations a = 0%nat → a = zeroAnalytics)) as (H1 & H2 & H3 & H4).
  { unfold a, get_analytics.
    pose proof (λ r, proj1 (filter_In (date_filter (default "month"%string timeframe) now)
                              r (db_results db))) as Hin.
    destruct (List.filter _ (db_results db)) as [|r rs]; simpl.
    { split; [lra|]. split; [lra|]. split; [intros; lra|done]. }
    set (profit := λ x, totalProfit (rec_result x)).
    destruct (foldl_max_of (profit r) (map profit rs)) as [Hx1 Hx2].
    destruct (foldl_min_of (profit r) (map profit rs)) as [Hn1 Hn2].
    destruct (mean_bounds (foldl min_of (profit r) (map profit rs))
                (foldl max_of (profit r) (map profit rs))
                (map profit (r :: rs))) as [Hlo Hhi]; [done| |].
    { simpl. constructor; [lra|].
      rewrite Forall_forall in Hx2, Hn2 |- *. intros y Hy. split; auto. }
    rewrite length_map in Hlo, Hhi. simpl in Hlo, Hhi.
    split; [exact Hlo|]. split; [exact Hhi|]. split; [|done].
    intros Hall. rewrite Forall_forall in Hall.
    destruct (mean_bounds 0 100 (map (λ x, efficiencyScore (rec_result x)) (r :: rs)))
      as [Hlo' Hhi']; [done| |].
    { apply Forall_forall. intros y (x & -> & Hx)%list_elem_of_fmap.
      apply Hall. apply list_elem_of_In. apply (Hin x). by apply list_elem_of_In. }
    rewrite length_map in Hlo', Hhi'. simpl in Hlo', Hhi'. by split. }
  do 4 (split; [done|]). split; [done|].
  pose proof (λ tf, get_analytics_counts db (Some tf) now) as Hc. simpl in Hc.
  destruct (Hc "week"%string) as (-> & -> & _).
  destruct (Hc "month"%string) as (-> & -> & _).
  destruct (Hc "year"%string) as (-> & -> & _).
  split; [apply (filter_weaken (λ _, 0%nat)); intros; by apply date_filter_nested|].
  split; [apply (filter_weaken (λ _, 0%nat)); intros; by apply date_filter_nested|].
  split; [apply filter_weaken; intros; by apply date_filter_nested|].
  split; [apply filter_weaken; intros; by apply date_filter_nested|].
  intros tf Htf. destruct (Hc tf) as (-> & _). f_equal.
  unfold date_filter. rewrite Htf. clear.
  induction (db_results db) as [|x l IH]; simpl; [done|]. by rewrite IH.
Qed.

Lemma analytics_consistent_witness :
  totalSimulations
    (get_analytics (post_run Sample.db Sample.params Sample.steady 7).1 (Some "week"%string) 9)
  <= totalSimulations
    (get_analytics (post_run Sample.db Sample.params Sample.steady 7).1 None 9).
Proof.
  destruct (analytics_consistent (post_run Sample.db Sample.params Sample.steady 7).1
              None 9%nat) as (_ & _ & _ & _ & _ & -> & H & _).
  exact H.
Defined.

(** ** Validation *)

Lemma sumQ_nonneg (l : list Q) : Forall (λ y, (0 <= y)%Q) l → (0 <= sumQ l)%Q.
Proof. induction 1; simpl; lra. Qed.

Lemma round2_nonneg (x : Q) : (0 <= x)%Q → (0 <= round2 x)%Q.
Proof.
  intros Hx. unfold round2, Qdiv. change (/ 100)%Q with (1 # 100)%Q.
  assert (0 <= JS.round (x * 100))%Q by (apply round_nonneg; lra). lra.
Qed.

Lemma calculateFuelCost_nonneg (route : Route) :
  (0 <= distanceKm route)%Q → (0 <= calculateFuelCost route)%Q.
Proof. intros H. unfold calculateFuelCost. destruct (trafficLevel route); lra. Qed.

Lemma simulationParamsSchema_true (p : SimulationParams) :
  simulationParamsSchema p = true ↔
  (1 <= numberOfDrivers p)%nat ∧ (numberOfDrivers p <= 50)%nat ∧
  routeStartTime_pattern (routeStartTime p) = true ∧
  (1 <= maxHoursPerDriver p)%Q ∧ (maxHoursPerDriver p <= 24)%Q.
Proof.
  unfold simulationParamsSchema.
  rewrite !andb_true_iff, !Nat.leb_le, !Qle_bool_iff. tauto.
Qed.

Lemma result_within_model (db : Database) (params : SimulationParams)
    (rand : nat → Q) (now : nat) (res : SimulationResult) :
  simulationParamsSchema params = true →
  (∀ route, route ∈ db_routes db → (0 <= distanceKm route)%Q) →
  runSimulation db params rand = Ok res →
  within_model {| rec_result := res; rec_params := params; rec_timestamp := now |}.
Proof.
  intros Hschema Hroutes Hrun.
  apply simulationParamsSchema_true in Hschema as (Hn1 & Hn50 & _ & Hh1 & Hh24).
  apply runSimulation_counts in Hrun as (asg & Hasg & -> & _).
  unfold within_model. simpl rec_result. simpl rec_params.
  pose proof (efficiency_facts (t_onTime (foldl accumulate zeroTotals asg))
                (t_late (foldl accumulate zeroTotals asg))) as (_ & _ & [He0 He1] & _).
  fold (calculateResults asg) in *.
  destruct (calculateResults_totals asg) as (_ & _ & _ & _ & Hb & Hs & Ht).
  assert (0 <= sumQ (map fuelCost asg))%Q as Hfuel.
  { apply sumQ_nonneg, Forall_forall. intros y (a & -> & Ha)%list_elem_of_fmap.
    destruct (assignment_produced _ _ _ _ _ _ Hasg Ha)
      as (order & route & d & wl & i & Ho & Hr & _ & ->).
    simpl. apply calculateFuelCost_nonneg, Hroutes.
    unfold find_orders in Ho. apply list_elem_of_fmap in Ho as (o & -> & _).
    simpl in Hr. apply find_some in Hr as [Hr _]. by apply list_elem_of_In. }
  split; [exact He0|]. split; [exact He1|].
  split; [rewrite Hb; apply round2_nonneg; lra|].
  split; [rewrite Hs; apply round2_nonneg; lra|].
  split; [rewrite Ht; by apply round2_nonneg|]. done.
Qed.

Lemma validators_pass_true (r : SimulationRecord) :
  validators_pass r = true ↔ within_model r ∧ routeStartTime (rec_params r) ≠ EmptyString.
Proof.
  unfold validators_pass, within_model.
  rewrite !andb_true_iff, !Qle_bool_iff, Nat.leb_le, negb_true_iff, String.eqb_neq.
  tauto.
Qed.

Lemma routeStartTime_pattern_nonempty (s : string) :
  routeStartTime_pattern s = true → s ≠ EmptyString.
Proof. by intros H ->. Qed.



(** X14.  When the body of [POST /run] passes [simulationParamsSchema] and
    no stored route has a negative distance, [save()] never rejects the
    record: a run that returns a result is answered with the saved record
    and the store of results grows by exactly that record, the drivers,
    routes and orders staying as they were; a run that throws is answered
    with status 500 and the store is unchanged.  So under these conditions
    a record is stored exactly when the engine returns a result. *)
Theorem save_accepts_every_result (db : Database) (params : SimulationParams)
    (rand : nat → Q) (now : nat) :
  simulationParamsSchema params = true →
  (∀ route, route ∈ db_routes db → (0 <= distanceKm route)%Q) →
  (∀ res, runSimulation db params rand = Ok res →
     let simulationResult :=
       {| rec_result := res; rec_params := params; rec_timestamp := now |} in
     validators_pass simulationResult = true ∧
     (post_run db params rand now).2 = Json simulationResult ∧
     db_results (post_run db params rand now).1 = db_results db ++ [simulationResult] ∧
     db_drivers (post_run db params rand now).1 = db_drivers db ∧
     db_routes (post_run db params rand now).1 = db_routes db ∧
     db_orders (post_run db params rand now).1 = db_orders db) ∧
  (∀ e, runSimulation db params rand = Throw e →
     post_run db params rand now = (db, Status500 e)) ∧
  (post_run db params rand now).2 ≠ Status500_validation.
Proof.
  intros Hschema Hroutes.
  assert (∀ res, runSimulation db params rand = Ok res →
            validators_pass {| rec_result := res; rec_params := params;
                               rec_timestamp := now |} = true) as Hpass.
  { intros res Hrun. apply validators_pass_true. split.
    - by apply (result_within_model db params rand).
    - simpl. apply routeStartTime_pattern_nonempty.
      by apply simulationParamsSchema_true in Hschema as (_ & _ & ? & _). }
  split; [|split].
  - intros res Hrun. simpl. split; [by apply Hpass|].
    unfold post_run. rewrite Hrun, (Hpass res Hrun). by simpl.
  - intros e Hrun. unfold post_run. by rewrite Hrun.
  - unfold post_run. destruct (runSimulation db params rand) as [res|e]; [|done].
    by rewrite (Hpass res eq_refl).
Qed.

Lemma save_accepts_every_result_witness :
  ∃ r, (post_run Sample.db Sample.params Sample.steady 7).2 = Json r ∧
       db_results (post_run Sample.db Sample.params Sample.steady 7).1
       = db_results Sample.db ++ [r].
Proof.
  assert (simulationParamsSchema Sample.params = true) as Hs by (by vm_compute).
  assert (∀ route, route ∈ db_routes Sample.db → (0 <= distanceKm route)%Q) as Hr.
  { intros route Hr. unfold Sample.db in Hr. simpl in Hr.
    apply elem_of_cons in Hr as [->|Hr]; [by vm_compute|].
    apply elem_of_cons in Hr as [->|Hr]; [by vm_compute|]. by apply elem_of_nil in Hr. }
  destruct (runSimulation Sample.db Sample.params Sample.steady) as [res|e] eqn:E;
    [|by vm_compute in E].
  destruct (save_accepts_every_result Sample.db Sample.params Sample.steady 7 Hs Hr)
    as (H & _).
  destruct (H res E) as (_ & H2 & H3 & _).
  eexists. split; [exact H2|exact H3].
Defined.

(** Without the condition on the routes [save()] can reject: a stored route
    of -10 km gives the only delivery a fuel cost of -50, the run returns a
    breakdown with negative figures, and the handler answers 500 and stores
    nothing. *)
Lemma save_rejects_negative_fuel_cost :
  ∃ res,
    runSimulation Cases.db_back_road Sample.params Sample.steady = Ok res ∧
    (total (fuelCostBreakdown res) == -50)%Q ∧
    simulationParamsSchema Sample.params = true ∧
    post_run Cases.db_back_road Sample.params Sample.steady 7
    = (Cases.db_back_road, Status500_validation).
Proof.
  destruct (runSimulation Cases.db_back_road Sample.params Sample.steady)
    as [res|e] eqn:E; [|by vm_compute in E].
  exists res. split; [done|]. vm_compute in E. injection E as <-.
  repeat split; by vm_compute.
Qed.


(** ** The pattern of [routeStartTime] *)

Lemma in_range_digit (hi c : ascii) :
  in_range "0"%char hi c = true →
  ∃ n, (n <= nat_of_ascii hi - 48)%nat ∧ c = digit n.
Proof.
  unfold in_range. rewrite andb_true_iff, !Nat.leb_le.
  change (nat_of_ascii "0") with 48%nat. intros [Hlo Hhi].
  exists (nat_of_ascii c - 48)%nat. split; [lia|].
  unfold digit. replace (48 + (nat_of_ascii c - 48))%nat with (nat_of_ascii c) by lia.
  by rewrite ascii_nat_embedding.
Qed.

Lemma two_digits (a b : nat) :
  (b < 10)%nat → ((10 * a + b) / 10 = a)%nat ∧ ((10 * a + b) mod 10 = b)%nat.
Proof.
  intros Hb. split.
  - symmetry. apply (Nat.div_unique _ 10 a b); lia.
  - symmetry. apply (Nat.mod_unique _ 10 a b); lia.
Qed.

Lemma clock_accepted (z : bool) (h m : nat) :
  (h < 24)%nat → (m < 60)%nat → (z = false → (h < 10)%nat) →
  routeStartTime_pattern (clock z h m) = true.
Proof.
  intros Hh Hm Hz.
  assert (forallb (λ h', forallb (λ m',
            routeStartTime_pattern (clock true h' m')
            && ((10 <=? h')%nat || routeStartTime_pattern (clock false h' m')))
            (seq 0 60)) (seq 0 24) = true) as Hall by (by vm_compute).
  rewrite forallb_forall in Hall. specialize (Hall h).
  rewrite forallb_forall in Hall.
  assert (In h (seq 0 24)) as Hin by (apply in_seq; lia).
  assert (In m (seq 0 60)) as Hin' by (apply in_seq; lia).
  specialize (Hall Hin m Hin'). apply andb_true_iff in Hall as [H1 H2].
  destruct z; [done|]. specialize (Hz eq_refl).
  apply orb_true_iff in H2 as [H2%Nat.leb_le|H2]; [lia|done].
Qed.

(** X13.  [routeStartTime] passes its pattern exactly when it is a time of
    the 24-hour clock, written as two digits of minutes after a colon and
    the hour in two digits, or in one digit for an hour below 10. *)
Theorem routeStartTime_is_a_clock_time (s : string) :
  routeStartTime_pattern s = true ↔
  ∃ h m, (h < 24)%nat ∧ (m < 60)%nat ∧
    (s = clock true h m ∨ ((h < 10)%nat ∧ s = clock false h m)).
Proof.
  split.
  - unfold routeStartTime_pattern.
    rewrite <- (String.string_of_list_ascii_of_string s).
    rewrite String.list_ascii_of_string_of_list_ascii.
    destruct (String.list_ascii_of_string s) as [|c1 [|c2 [|c3 [|c4 [|c5 [|c6 l]]]]]];
      try done.
    + rewrite !andb_true_iff.
      intros [[[(a & Ha & ->)%in_range_digit ->%Ascii.eqb_eq]
                (b & Hb & ->)%in_range_digit] (c & Hc & ->)%in_range_digit].
      change (nat_of_ascii "9" - 48)%nat with 9%nat in *.
      change (nat_of_ascii "5" - 48)%nat with 5%nat in *.
      exists a, (10 * b + c)%nat. split; [lia|]. split; [lia|]. right.
      split; [lia|]. unfold clock. destruct (two_digits b c) as [-> ->]; [lia|done].
    + rewrite !andb_true_iff, orb_true_iff, !andb_true_iff.
      intros [[[Hhour ->%Ascii.eqb_eq]
                (b & Hb & ->)%in_range_digit] (c & Hc & ->)%in_range_digit].
      change (nat_of_ascii "9" - 48)%nat with 9%nat in *.
      change (nat_of_ascii "5" - 48)%nat with 5%nat in *.
      destruct Hhour as [[(a1 & Ha1 & ->)%in_range_digit (a2 & Ha2 & ->)%in_range_digit]
                        |[->%Ascii.eqb_eq (a2 & Ha2 & ->)%in_range_digit]].
      * change (nat_of_ascii "1" - 48)%nat with 1%nat in *.
        change (nat_of_ascii "9" - 48)%nat with 9%nat in *.
        exists (10 * a1 + a2)%nat, (10 * b + c)%nat. split; [lia|]. split; [lia|].
        left. unfold clock.
        destruct (two_digits b c) as [-> ->]; [lia|].
        destruct (two_digits a1 a2) as [-> ->]; [lia|done].
      * change (nat_of_ascii "3" - 48)%nat with 3%nat in *.
        exists (10 * 2 + a2)%nat, (10 * b + c)%nat. split; [lia|]. split; [lia|].
        left. unfold clock.
        destruct (two_digits b c) as [-> ->]; [lia|].
        destruct (two_digits 2 a2) as [-> ->]; [lia|done].
  - intros (h & m & Hh & Hm & [->|[Hh' ->]]); by apply clock_accepted.
Qed.

(** * Runs and the store *)

Lemma count_on_time_none (asg : list DeliveryAssignment) :
  Forall (λ a, isOnTime a = false) asg → count_on_time asg = 0%nat.
Proof.
  unfold count_on_time. induction 1 as [|a asg Ha _ IH]; simpl; [done|].
  by rewrite Ha.
Qed.

Lemma count_on_time_all (asg : list DeliveryAssignment) :
  Forall (λ a, isOnTime a = true) asg → count_on_time asg = length asg.
Proof.
  unfold count_on_time. induction 1 as [|a asg Ha _ IH]; simpl; [done|].
  rewrite Ha. simpl. by rewrite IH.
Qed.

(** X15.  With draws in [[0, 1)]: when every stored route has High traffic
    and a base time of 30 or more, a run has no on-time delivery and an
    efficiency score of 0; when every stored route has Low traffic and a base
    time between 0 and 95 and no driver has more than 56 past-week hours, a
    run has no late delivery, and an efficiency score of 100 as soon as it
    assigns an order. *)
Theorem punctuality_fixed_by_the_routes (db : Database) (params : SimulationParams)
    (rand : nat → Q) (res : SimulationResult) :
  runSimulation db params rand = Ok res →
  valid_draws rand →
  ((∀ route, route ∈ db_routes db →
      trafficLevel route = High ∧ (30 <= baseTimeMinutes route)%Q) →
   onTimeDeliveries res = 0%nat ∧ (efficiencyScore res == 0)%Q) ∧
  ((∀ route, route ∈ db_routes db →
      trafficLevel route = Low ∧ (0 <= baseTimeMinutes route)%Q ∧
      (baseTimeMinutes route <= 95)%Q) →
   (∀ d, d ∈ db_drivers db → (pastWeekHours d <= 56)%Q) →
   lateDeliveries res = 0%nat ∧
   ((0 < onTimeDeliveries res)%nat → (efficiencyScore res == 100)%Q)).
Proof.
  intros (asg & Hasg & -> & Hn)%runSimulation_counts Hrand.
  destruct (calculateResults_totals asg) as (_ & Hon & Hlate & Hle & _).
  pose proof (efficiency_facts (t_onTime (foldl accumulate zeroTotals asg))
                (t_late (foldl accumulate zeroTotals asg))) as (Hscore & _ & _ & Hzero).
  change (t_onTime (foldl accumulate zeroTotals asg))
    with (onTimeDeliveries (calculateResults asg)) in Hscore, Hzero.
  change (t_late (foldl accumulate zeroTotals asg))
    with (lateDeliveries (calculateResults asg)) in Hscore, Hzero.
  assert (∀ a, a ∈ asg → ∃ o route d i,
            route ∈ db_routes db ∧ d ∈ db_drivers db ∧
            a = mkAssignment o d route (rand i)) as Horigin.
  { intros a Ha.
    destruct (assignment_produced _ _ _ _ _ _ Hasg Ha)
      as (order & route & d & wl & i & Ho & Hr & Hd & ->).
    exists (p_order order), route, d, i. split; [|split; [|done]].
    - unfold find_orders in Ho. apply list_elem_of_fmap in Ho as (o & -> & _).
      simpl in Hr. apply find_some in Hr as [Hr _]. by apply list_elem_of_In.
    - apply availableDriver_Some in Hd as (l1 & l2 & w & Hpool & _).
      eapply (limit_take (numberOfDrivers params)). rewrite Hpool.
      apply elem_of_app. right. by left. }
  split.
  - intros Hroutes.
    assert (count_on_time asg = 0%nat) as Hc.
    { apply count_on_time_none, Forall_forall. intros a Ha.
      destruct (Horigin a Ha) as (o & route & d & i & Hr & _ & ->).
      destruct (Hroutes route Hr) as [Ht Hb]. destruct (Hrand i) as [H0 _].
      apply mkAssignment_late; [done|lra|].
      rewrite estimatedTime_factors, Ht. simpl.
      destruct (factor_bounds d High) as (Hf & _). nra. }
    split; [by rewrite Hon|]. apply Hzero. rewrite Hon, Hc.
    destruct (lateDeliveries (calculateResults asg)); [by left|right; lia].
  - intros Hroutes Hdrivers.
    assert (count_on_time asg = length asg) as Hc.
    { apply count_on_time_all, Forall_forall. intros a Ha.
      destruct (Horigin a Ha) as (o & route & d & i & Hr & Hd & ->).
      destruct (Hroutes route Hr) as (Ht & Hb0 & Hb). destruct (Hrand i) as [_ H1].
      specialize (Hdrivers d Hd).
      apply mkAssignment_on_time; [done..|].
      rewrite estimatedTime_factors, Ht. unfold fatigue_factor.
      destruct (Qlt_le_dec 56 (pastWeekHours d)); [lra|]. simpl. lra. }
    assert (lateDeliveries (calculateResults asg) = 0%nat) as Hl by lia.
    split; [done|]. intros Hpos. etrans; [apply Hscore; lia|].
    rewrite Hl, Nat.add_0_r.
    assert (0 < Q_of_nat (onTimeDeliveries (calculateResults asg)))%Q as Hq
      by (by apply (Q_of_nat_lt 0)).
    assert (100 * Q_of_nat (onTimeDeliveries (calculateResults asg))
              / Q_of_nat (onTimeDeliveries (calculateResults asg)) == 100)%Q as ->
      by (field; lra).
    reflexivity.
Qed.

Lemma punctuality_fixed_by_the_routes_witness :
  onTimeDeliveries Sample.result_late = 0%nat ∧
  (efficiencyScore Sample.result_late == 0)%Q.
Proof.
  destruct (punctuality_fixed_by_the_routes Sample.db_late Sample.params Sample.steady
              Sample.result_late Sample_result_late) as [H _].
  - intros i. split; by vm_compute.
  - apply H. intros route [->|[]%elem_of_nil]%elem_of_cons. split; [done|]. by vm_compute.
Defined.
